(** * electron-updater: update availability, staging gate, download bookkeeping

    A shallow embedding of the decision and bookkeeping code of
    [packages/electron-updater/src/AppUpdater.ts] and of the download task of
    [packages/electron-updater/src/AppImageUpdater.ts], with the properties
    the specification states about them.

    Conventions.
    - A JavaScript value is a [JsValue]; [null] and [undefined] are kept
      apart because the code tests [x == null] (both) and [typeof x].
    - A JavaScript number that the staging gate computes with is an exact
      rational ([Q]).  Every number the gate divides or compares is a
      quotient of two integers below 2^53 whose distinct values lie more than
      2e-12 apart, far above the spacing of binary64 near 1, and IEEE
      division is monotone and correctly rounded; so [<] on the doubles
      decides as [<] on the rationals.
    - Code that logs, emits events, touches the cache directory or throws is
      written in the monad [M] over the record [World]. *)

From Stdlib Require Import ZArith QArith String Ascii List Lia Bool.
From Stdlib Require PrimFloat Uint63.
From stdpp Require Import gmap strings.
Import ListNotations.

Local Open Scope string_scope.

(** ** JavaScript values *)

(** [JsNumber z] is a Number whose value is the integer [z], below 1e21 in
    magnitude; the manifest's [stagingPercentage] is documented as an integer
    0-100, and fractional Numbers are not represented. *)
Inductive JsValue : Type :=
| JsUndefined
| JsNull
| JsBoolean (b : bool)
| JsNumber (z : Z)
| JsNaN
| JsString (s : string)
| JsObject.

(** [v == null] *)
Definition isNullish (v : JsValue) : bool :=
  match v with
  | JsUndefined | JsNull => true
  | _ => false
  end.

(** [typeof v === "string"] *)
Definition isString (v : JsValue) : bool :=
  match v with
  | JsString _ => true
  | _ => false
  end.

(** A template literal, kept as its parts: text, interpolated values and
    interpolated numbers. *)
Inductive Frag : Type :=
| Str (s : string)
| Val (v : JsValue)
| Num (q : Q).

Definition Template := list Frag.

(** An [Error] object: [isCancellation] is [e instanceof CancellationError],
    [code] is the property [newError] sets. *)
Record JsError : Type := mkError {
  isCancellation : bool;
  message : Template;
  code : option string
}.

(** [newError(message, code)] of builder-util-runtime. *)
Definition newError (msg : Template) (c : string) : JsError :=
  {| isCancellation := false; message := msg; code := Some c |}.

(** ** parseInt *)

(** StrWhiteSpaceChar, the ASCII part. *)
Definition isStrWhiteSpaceChar (c : ascii) : bool :=
  let n := nat_of_ascii c in
  (n =? 9)%nat || (n =? 10)%nat || (n =? 11)%nat || (n =? 12)%nat
  || (n =? 13)%nat || (n =? 32)%nat.

Fixpoint trimStart (cs : list ascii) : list ascii :=
  match cs with
  | c :: r => if isStrWhiteSpaceChar c then trimStart r else cs
  | [] => []
  end.

Definition decimalDigit (c : ascii) : option Z :=
  let n := Z.of_nat (nat_of_ascii c) in
  if ((48 <=? n) && (n <=? 57))%Z then Some (n - 48)%Z else None.

(** The longest prefix of decimal digits, read left to right; [seen] tells
    whether at least one digit was consumed. *)
Fixpoint readDigits (cs : list ascii) (acc : Z) (seen : bool)
  : option Z :=
  match cs with
  | c :: r =>
      match decimalDigit c with
      | Some d => readDigits r (10 * acc + d)%Z true
      | None => if seen then Some acc else None
      end
  | [] => if seen then Some acc else None
  end.

(** [parseInt(s, 10)] on a string; [None] is NaN. *)
Definition parseInt_string (s : string) : option Z :=
  match trimStart (list_ascii_of_string s) with
  | "-"%char :: r => Z.opp <$> readDigits r 0%Z false
  | "+"%char :: r => readDigits r 0%Z false
  | cs => readDigits cs 0%Z false
  end.

(** [parseInt(v, 10)]: the argument goes through ToString first.  ToString of
    an integer-valued Number below 1e21 in magnitude is its decimal numeral,
    which is read back in full; the other non-string values print as words
    ("undefined", "null", "true", "NaN", "[object Object]") that start with
    no digit. *)
Definition parseInt (v : JsValue) : option Z :=
  match v with
  | JsString s => parseInt_string s
  | JsNumber z => Some z
  | JsUndefined => parseInt_string "undefined"
  | JsNull => parseInt_string "null"
  | JsBoolean b => parseInt_string (if b then "true" else "false")
  | JsNaN => parseInt_string "NaN"
  | JsObject => parseInt_string "[object Object]"
  end.

(** ** Buffers and UUIDs *)

Definition Buffer := list Byte.byte.

Definition byteAt (buf : Buffer) (i : nat) : option Z :=
  (fun b => Z.of_N (Byte.to_N b)) <$> nth_error buf i.

(** [buf.readUInt32BE(offset)]; [None] is the RangeError of an offset whose
    four bytes are not all inside the buffer. *)
Definition readUInt32BE (buf : Buffer) (offset : nat) : option Z :=
  match byteAt buf offset, byteAt buf (offset + 1),
        byteAt buf (offset + 2), byteAt buf (offset + 3) with
  | Some first, Some b1, Some b2, Some last =>
      Some (first * 2 ^ 24 + b1 * 2 ^ 16 + b2 * 2 ^ 8 + last)%Z
  | _, _, _, _ => None
  end.

Definition hexDigit (c : ascii) : option N :=
  let n := N.of_nat (nat_of_ascii c) in
  if ((48 <=? n) && (n <=? 57))%N then Some (n - 48)%N
  else if ((97 <=? n) && (n <=? 102))%N then Some (n - 87)%N
  else if ((65 <=? n) && (n <=? 70))%N then Some (n - 55)%N
  else None.

Fixpoint hexPairs (cs : list ascii) : option Buffer :=
  match cs with
  | [] => Some []
  | hi :: lo :: r =>
      h ← hexDigit hi; l ← hexDigit lo;
      b ← Byte.of_N (16 * h + l); rest ← hexPairs r;
      Some (b :: rest)
  | [_] => None
  end.

Definition isDash (c : ascii) : bool := Ascii.eqb c "-".

(** Modelled from the spec: [UUID.parse] of builder-util-runtime, whose
    source file (uuid.ts) is not among the sources.  The spec speaks of the
    persisted UUID and of "its last 4 bytes"; the canonical text of a UUID,
    8-4-4-4-12 hexadecimal digits, denotes its 16 bytes two digits per
    byte.  Text that is not of this form has no bytes here ([None]). *)
Definition UUID_parse (input : string) : option Buffer :=
  match list_ascii_of_string input with
  | a0 :: a1 :: a2 :: a3 :: a4 :: a5 :: a6 :: a7 :: d1 ::
    b0 :: b1 :: b2 :: b3 :: d2 ::
    c0 :: c1 :: c2 :: c3 :: d3 ::
    e0 :: e1 :: e2 :: e3 :: d4 :: node =>
      if isDash d1 && isDash d2 && isDash d3 && isDash d4
         && (length node =? 12)%nat
      then hexPairs ([a0; a1; a2; a3; a4; a5; a6; a7; b0; b1; b2; b3;
                      c0; c1; c2; c3; e0; e1; e2; e3] ++ node)
      else None
  | _ => None
  end.

(** ** The updater's world *)

(** [useSemver: boolean | "loose"] *)
Inductive UseSemver : Type := SemverFalse | SemverTrue | SemverLoose.

(** [process.platform], as far as the code tells the values apart. *)
Inductive Platform : Type := Linux | Darwin | Win32.

(** The manifest entry, with the fields the decision and the cache read.
    An absent [stagingPercentage] is [JsUndefined]; [files] holds the URLs of
    the file descriptors. *)
Record UpdateInfo : Type := mkUpdateInfo {
  version : string;
  stagingPercentage : JsValue;
  files : list string
}.

(** [ResolvedUpdateFileInfo]: the path of the file's URL and the expected
    hash. *)
Record ResolvedUpdateFileInfo : Type := mkFileInfo {
  urlPathname : string;
  sha512 : string
}.

(** The sidecar record of the download cache. *)
Record CachedUpdateInfo : Type := mkCached {
  cachedFile : string;
  cachedVersion : string;
  cachedSha512 : string;
  cachedSize : N
}.

Inductive Level : Type := Info | Warn | Error.

Inductive Event : Type :=
| EvError (e : JsError)
| EvUpdateCancelled (info : UpdateInfo)
| EvUpdateDownloaded (info : UpdateInfo) (downloadedFile : string).

(** What an observer of the updater sees, in the order it happens: logger
    calls, emitted events, and the calls made on the download cache helper
    and on the HTTP executor. *)
Inductive Effect : Type :=
| Log (lvl : Level) (msg : Template)
| Emit (ev : Event)
| CallSetDownloadedFile (file : string) (isSaveCache : bool)
| CallTask (destinationFile : string)
| CallFullDownload (destinationFile : string).

(** [UpdateInfoAndProvider], without the provider object. *)
Record UpdateInfoAndProvider : Type := mkInfoAndProvider {
  info : UpdateInfo;
  stagingUserId : option string
}.

(** How a promise settles: [doCheckForUpdates] resolves with an
    [UpdateCheckResult] (its [updateInfo]) or rejects. *)
Inductive Settlement : Type :=
| Fulfilled (updateInfo : option UpdateInfo)
| Rejected (e : JsError).

(** A pending check has or has not yet asked the provider for the latest
    version. *)
Inductive PromiseState : Type :=
| Pending (requested : bool)
| Settled (s : Settlement).

(** The promise objects of update checks, by identity, with the memo field
    [checkForUpdatesPromise] and the number of round trips to the provider
    ([provider.getLatestVersion]).  [nextPromise] is the identity of the next
    promise and so counts the checks started. *)
Record Checks : Type := mkChecks {
  checkForUpdatesPromise : option nat;
  promises : gmap nat PromiseState;
  nextPromise : nat;
  providerRequests : nat
}.

Record World : Type := mkWorld {
  (* fields of the AppUpdater instance *)
  allowDowngrade : bool;
  useSemver : UseSemver;
  currentVersionString : string;
  _channel : JsValue;
  updateInfoAndProvider : option UpdateInfoAndProvider;
  checks : Checks;
  (* the environment *)
  platform : Platform;
  (* the pending-update cache directory: file name to size on disk *)
  cacheDir : gmap string N;
  (* the download cache helper: the sidecar record and the current file *)
  sidecar : option CachedUpdateInfo;
  downloadedFile : option string;
  (* everything observable, oldest first *)
  trace : list Effect
}.

Definition with_trace (t : list Effect) (w : World) : World :=
  mkWorld (allowDowngrade w) (useSemver w) (currentVersionString w)
          (_channel w) (updateInfoAndProvider w) (checks w) (platform w)
          (cacheDir w) (sidecar w) (downloadedFile w) t.

Definition with_cacheDir (d : gmap string N) (w : World) : World :=
  mkWorld (allowDowngrade w) (useSemver w) (currentVersionString w)
          (_channel w) (updateInfoAndProvider w) (checks w) (platform w)
          d (sidecar w) (downloadedFile w) (trace w).

Definition with_helper (s : option CachedUpdateInfo) (f : option string)
  (w : World) : World :=
  mkWorld (allowDowngrade w) (useSemver w) (currentVersionString w)
          (_channel w) (updateInfoAndProvider w) (checks w) (platform w)
          (cacheDir w) s f (trace w).

Definition with_channel (c : JsValue) (a : bool) (w : World) : World :=
  mkWorld a (useSemver w) (currentVersionString w) c
          (updateInfoAndProvider w) (checks w) (platform w)
          (cacheDir w) (sidecar w) (downloadedFile w) (trace w).

Definition with_checks (c : Checks) (w : World) : World :=
  mkWorld (allowDowngrade w) (useSemver w) (currentVersionString w)
          (_channel w) (updateInfoAndProvider w) c (platform w) (cacheDir w)
          (sidecar w) (downloadedFile w) (trace w).

(** ** The monad of updater code: state and exceptions *)

Inductive Completion (A : Type) : Type :=
| Normal (a : A)
| Throw (e : JsError).
Arguments Normal {A} a.
Arguments Throw {A} e.

Definition M (A : Type) : Type := World -> Completion A * World.

Definition ret {A} (a : A) : M A := fun w => (Normal a, w).

Definition throw {A} (e : JsError) : M A := fun w => (Throw e, w).

Definition bind {A B} (c : M A) (k : A -> M B) : M B :=
  fun w =>
    match c w with
    | (Normal a, w') => k a w'
    | (Throw e, w') => (Throw e, w')
    end.

(** [try { c } catch (e) { h e }] *)
Definition tryCatch {A} (c : M A) (h : JsError -> M A) : M A :=
  fun w =>
    match c w with
    | (Normal a, w') => (Normal a, w')
    | (Throw e, w') => h e w'
    end.

Definition get : M World := fun w => (Normal w, w).

Definition modify (f : World -> World) : M unit :=
  fun w => (Normal tt, f w).

Notation "'let*' x ':=' c 'in' k" := (bind c (fun x => k))
  (at level 10, x name, c at level 100, k at level 200).

Definition effect (e : Effect) : M unit :=
  modify (fun w => with_trace (trace w ++ [e]) w).

(** [this._logger.info / warn / error] *)
Definition logger (lvl : Level) (msg : Template) : M unit :=
  effect (Log lvl msg).

(** [this.emit(...)] *)
Definition emit (ev : Event) : M unit := effect (Emit ev).

(** ** The staging gate *)

Definition Qltb (x y : Q) : bool := negb (Qle_bool y x).

(** [val / 0xffffffff] *)
Definition stagingFraction (val : Z) : Q := inject_Z val / inject_Z 0xffffffff.

(** [AppUpdater.isStagingMatch].  The staging user ID comes from
    [getOrCreateStagingUserId], which returns a checked or a freshly generated
    UUID, or null; for other text [UUID_parse] has no bytes and the call is
    an error here. *)
Definition isStagingMatch (updateInfo : UpdateInfo)
  (stagingUserId : option string) : M bool :=
  let rawStagingPercentage := stagingPercentage updateInfo in
  if isNullish rawStagingPercentage then ret true
  else
    match parseInt rawStagingPercentage with
    | None =>
        let* _ := logger Warn [Str "Staging percentage is NaN: ";
                               Val rawStagingPercentage] in
        ret true
    | Some parsed =>
        match stagingUserId with
        | None =>
            let* _ := logger Warn
              [Str "Staging user ID is not supported, allowing the update"] in
            ret true
        | Some id =>
            (* convert from user 0-100 to internal 0-1 *)
            let stagingPercentage := (inject_Z parsed / 100)%Q in
            match UUID_parse id with
            | None =>
                throw (mkError false [Str "not a UUID: "; Str id] None)
            | Some buf =>
                match readUInt32BE buf 12 with
                | None =>
                    throw (mkError false [Str "offset is out of range"]
                                   (Some "ERR_OUT_OF_RANGE"))
                | Some val =>
                    let percentage := stagingFraction val in
                    let* _ := logger Info
                      [Str "Staging percentage: "; Num stagingPercentage;
                       Str ", percentage: "; Num percentage;
                       Str ", user id: "; Str id] in
                    ret (Qltb percentage stagingPercentage)
                end
            end
        end
    end.

(** The comparison of the gate on binary64 numbers, as the engine computes
    it, for an integer percentage and the integer read from the UUID; used
    to cross-check the rational model at the boundaries. *)
Definition numberOfInt (z : Z) : PrimFloat.float :=
  PrimFloat.of_uint63 (Uint63.of_Z z).

Definition stagingGate_binary64 (parsed val : Z) : bool :=
  PrimFloat.ltb
    (PrimFloat.div (numberOfInt val) (numberOfInt 0xffffffff))
    (PrimFloat.div (numberOfInt parsed) (numberOfInt 100)).

(** The same comparison on rationals, as [isStagingMatch] makes it. *)
Definition stagingGate (parsed val : Z) : bool :=
  Qltb (stagingFraction val) (inject_Z parsed / 100).

(** ** Semantic versions *)

(** The part of the semver package the updater imports.  [parse] takes the
    [{ loose: true }] option as a boolean and returns [null] ([None]) for
    text that is not a version; [eq], [gt] and [lt] are the package's
    comparisons of [compare] with 0. *)
Class Semver : Type := {
  SemVer : Type;
  parseVersion : string -> bool -> option SemVer;
  compareVersions : SemVer -> SemVer -> comparison
}.

Section Availability.
Context `{Semver}.

Definition isVersionsEqual (a b : SemVer) : bool :=
  match compareVersions a b with Eq => true | _ => false end.

Definition isVersionGreaterThan (a b : SemVer) : bool :=
  match compareVersions a b with Gt => true | _ => false end.

Definition isVersionLessThan (a b : SemVer) : bool :=
  match compareVersions a b with Lt => true | _ => false end.

Definition isLoose (u : UseSemver) : bool :=
  match u with SemverLoose => true | _ => false end.

(** The getter [currentVersion]. *)
Definition currentVersion (w : World) : option SemVer :=
  match useSemver w with
  | SemverFalse => None
  | u => parseVersion (currentVersionString w) (isLoose u)
  end.

(** [AppUpdater.isUpdateAvailable] *)
Definition isUpdateAvailable (updateInfoAndProvider : UpdateInfoAndProvider)
  : M bool :=
  let updateInfo := info updateInfoAndProvider in
  let stagingUserId := stagingUserId updateInfoAndProvider in
  let* this := get in
  match useSemver this with
  | SemverFalse =>
      ret (negb (String.eqb (version updateInfo)
                            (currentVersionString this)))
  | u =>
      match parseVersion (version updateInfo) (isLoose u) with
      | None =>
          throw (newError
            [Str "This file could not be downloaded, or the latest version (from update server) does not have a valid semver version: ";
             Str (version updateInfo)]
            "ERR_UPDATER_INVALID_VERSION")
      | Some latestVersion =>
          match currentVersion this with
          | None =>
              throw (newError
                [Str "App version is not a valid semver version: ";
                 Str (currentVersionString this)]
                "ERR_UPDATER_INVALID_VERSION")
          | Some current =>
              if isVersionsEqual latestVersion current then ret false
              else
                let* isStagingMatch :=
                  isStagingMatch updateInfo stagingUserId in
                if negb isStagingMatch then ret false
                else
                  let isLatestVersionNewer :=
                    isVersionGreaterThan latestVersion current in
                  let isLatestVersionOlder :=
                    isVersionLessThan latestVersion current in
                  if isLatestVersionNewer then ret true
                  else
                    let* this := get in
                    ret (allowDowngrade this && isLatestVersionOlder)
          end
      end
  end.

End Availability.

(** ** The channel setter *)

(** [set channel(value)] *)
Definition set_channel (value : JsValue) : M unit :=
  let* this := get in
  let* _ :=
    if negb (isNullish (_channel this)) then
      match value with
      | JsString s =>
          if (String.length s =? 0)%nat then
            throw (newError [Str "Channel must be not an empty string"]
                            "ERR_UPDATER_INVALID_CHANNEL")
          else ret tt
      | _ =>
          throw (newError [Str "Channel must be a string, but got: ";
                           Val value]
                          "ERR_UPDATER_INVALID_CHANNEL")
      end
    else ret tt in
  modify (with_channel value true).

(** ** The download cache helper and the file system *)

(** [fs.unlink]: ENOENT when the file is not there. *)
Definition unlink (file : string) : M unit :=
  let* w := get in
  match cacheDir w !! file with
  | Some _ => modify (with_cacheDir (delete file (cacheDir w)))
  | None =>
      throw (mkError false [Str "ENOENT: no such file or directory, unlink ";
                            Str file] (Some "ENOENT"))
  end.

(** [fs.rename]: ENOENT when the source is not there; an existing target is
    replaced. *)
Definition rename (oldPath newPath : string) : M unit :=
  let* w := get in
  match cacheDir w !! oldPath with
  | Some size =>
      modify (with_cacheDir (<[newPath := size]> (delete oldPath (cacheDir w))))
  | None =>
      throw (mkError false [Str "ENOENT: no such file or directory, rename ";
                            Str oldPath] (Some "ENOENT"))
  end.

(** [fs.chmod]: ENOENT when the file is not there; the mode is not
    represented. *)
Definition chmod (file : string) : M unit :=
  let* w := get in
  match cacheDir w !! file with
  | Some _ => ret tt
  | None =>
      throw (mkError false [Str "ENOENT: no such file or directory, chmod ";
                            Str file] (Some "ENOENT"))
  end.

(** Modelled from the spec: [DownloadedUpdateHelper.clear], whose source
    file (DownloadedUpdateHelper.ts) is not among the sources: "deletes the
    cache directory contents"; the helper forgets its record and file. *)
Definition clear : M unit :=
  modify (fun w => with_helper None None (with_cacheDir ∅ w)).

(** Modelled from the spec: [DownloadedUpdateHelper.validateDownloadedPath]
    (DownloadedUpdateHelper.ts is not among the sources): "reuses a
    previously downloaded file if: its recorded version equals the new
    version, its recorded hash equals the expected hash, and its file size on
    disk matches the recorded size exactly.  Any mismatch discards the cache
    entry and returns null". *)
Definition validateDownloadedPath (updateFile : string)
  (updateInfo : UpdateInfo) (fileInfo : ResolvedUpdateFileInfo)
  : M (option string) :=
  let* w := get in
  match sidecar w with
  | None => ret None
  | Some c =>
      if String.eqb (cachedVersion c) (version updateInfo)
         && String.eqb (cachedSha512 c) (sha512 fileInfo)
         && bool_decide (cacheDir w !! cachedFile c = Some (cachedSize c))
      then ret (Some (cachedFile c))
      else let* _ := clear in ret None
  end.

(** Modelled from the spec: [DownloadedUpdateHelper.setDownloadedFile]
    (DownloadedUpdateHelper.ts is not among the sources): "persists a new
    CachedUpdateInfo record only when isSaveCache is true".  The call itself
    is recorded in the trace. *)
Definition setDownloadedFile (file : string) (updateInfo : UpdateInfo)
  (fileInfo : ResolvedUpdateFileInfo) (isSaveCache : bool) : M unit :=
  let* _ := effect (CallSetDownloadedFile file isSaveCache) in
  modify (fun w =>
    with_helper
      (if isSaveCache
       then Some (mkCached file (version updateInfo) (sha512 fileInfo)
                           (default 0%N (cacheDir w !! file)))
       else sidecar w)
      (Some file) w).

(** Modelled from the spec: [createTempUpdateFile] (DownloadedUpdateHelper.ts
    is not among the sources): the in-flight temp file of the cache
    directory, which the downloader owns "until it is atomically renamed to
    the final cached file"; a stale file of that name is removed. *)
Definition createTempUpdateFile (name : string) : M string :=
  let* _ := modify (fun w => with_cacheDir (delete name (cacheDir w)) w) in
  ret name.

(** ** executeDownload *)

Definition endsWith (s suffix : string) : bool :=
  let n := String.length s in
  let k := String.length suffix in
  (k <=? n)%nat && String.eqb (substring (n - k) k s) suffix.

(** [path.posix.basename] of a path that does not end in a slash. *)
Fixpoint basename_aux (cs : list ascii) (acc : list ascii) : list ascii :=
  match cs with
  | [] => acc
  | c :: r =>
      if Ascii.eqb c "/" then basename_aux r [] else basename_aux r (acc ++ [c])
  end.

Definition basename (p : string) : string :=
  string_of_list_ascii (basename_aux (list_ascii_of_string p) []).

(** [DownloadExecutorTask].  The update info is the one of
    [downloadUpdateOptions.updateInfoAndProvider]; the task receives the
    destination file (the download options carry request data only); paths
    are names inside the pending-update cache directory, and [packageFile]
    is the package file name already worked out from [packageInfo]. *)
Record DownloadExecutorTask : Type := mkTask {
  fileExtension : string;
  fileInfo : ResolvedUpdateFileInfo;
  taskUpdateInfo : UpdateInfo;
  packageFile : option string;
  task : string -> M unit;
  done : UpdateInfo -> string -> M unit
}.

Definition getCacheUpdateFileName (taskOptions : DownloadExecutorTask)
  : string :=
  let urlPath := urlPathname (fileInfo taskOptions) in
  if endsWith urlPath ("." ++ fileExtension taskOptions)
  then basename urlPath
  else "update." ++ fileExtension taskOptions.

(** The closure [removeFileIfAny]: both failures are ignored. *)
Definition removeFileIfAny (updateFile : string) : M unit :=
  let* _ := tryCatch clear (fun _ => ret tt) in
  tryCatch (unlink updateFile) (fun _ => ret tt).

(** The closure [done]. *)
Definition executeDownload_done (taskOptions : DownloadExecutorTask)
  (updateFile : string) (isSaveCache : bool) : M (list string) :=
  let updateInfo := taskUpdateInfo taskOptions in
  let* _ := setDownloadedFile updateFile updateInfo (fileInfo taskOptions)
                              isSaveCache in
  let* _ := done taskOptions updateInfo updateFile in
  ret (match packageFile taskOptions with
       | None => [updateFile]
       | Some p => [updateFile; p]
       end).

(** The body of the [try] block: the download task, then the rename of the
    temp file into place.  [CallTask] records that the task was started. *)
Definition downloadAndRename (taskOptions : DownloadExecutorTask)
  (tempUpdateFile updateFile : string) : M unit :=
  let* _ := effect (CallTask tempUpdateFile) in
  let* _ := task taskOptions tempUpdateFile in
  rename tempUpdateFile updateFile.

(** [AppUpdater.executeDownload].  The helper is the one of the world, and
    creating the cache directory does not fail. *)
Definition executeDownload (taskOptions : DownloadExecutorTask)
  : M (list string) :=
  let updateInfo := taskUpdateInfo taskOptions in
  let updateFileName := getCacheUpdateFileName taskOptions in
  let updateFile := updateFileName in
  let* cachedUpdateFile :=
    validateDownloadedPath updateFile updateInfo (fileInfo taskOptions) in
  match cachedUpdateFile with
  | Some cached => executeDownload_done taskOptions cached false
  | None =>
      let* tempUpdateFile := createTempUpdateFile ("temp-" ++ updateFileName) in
      let* _ :=
        tryCatch
          (downloadAndRename taskOptions tempUpdateFile updateFile)
          (fun e =>
             let* _ := removeFileIfAny updateFile in
             let* _ :=
               if isCancellation e then
                 let* _ := logger Info [Str "cancelled"] in
                 emit (EvUpdateCancelled updateInfo)
               else ret tt in
             throw e) in
      let* _ := logger Info [Str "New version "; Str (version updateInfo);
                             Str " has been downloaded to "; Str updateFile] in
      executeDownload_done taskOptions updateFile true
  end.

(** [BaseUpdater.executeDownload]: the [done] callback dispatches
    "update-downloaded". *)
Definition BaseUpdater_executeDownload (taskOptions : DownloadExecutorTask)
  : M (list string) :=
  executeDownload
    (mkTask (fileExtension taskOptions) (fileInfo taskOptions)
            (taskUpdateInfo taskOptions) (packageFile taskOptions)
            (task taskOptions)
            (fun event downloaded => emit (EvUpdateDownloaded event downloaded))).

(** ** downloadUpdate *)

(** [dispatchError] *)
Definition dispatchError (e : JsError) : M unit := emit (EvError e).

(** The closure [errorHandler]. *)
Definition errorHandler (e : JsError) : M JsError :=
  let* _ :=
    if negb (isCancellation e) then
      tryCatch (dispatchError e)
        (fun nestedError =>
           logger Warn (Str "Cannot dispatch error event: "
                        :: message nestedError))
    else ret tt in
  ret e.

(** [AppUpdater.downloadUpdate]; [doDownloadUpdate] is the abstract method,
    given the update info of [this.updateInfoAndProvider]. *)
Definition downloadUpdate (doDownloadUpdate : UpdateInfoAndProvider -> M (list string))
  : M (list string) :=
  let* this := get in
  match updateInfoAndProvider this with
  | None =>
      let error := mkError false [Str "Please check update first"] None in
      let* _ := dispatchError error in
      throw error
  | Some updateInfoAndProvider =>
      let* _ := logger Info
        [Str "Downloading update from ";
         Str (String.concat ", " (files (info updateInfoAndProvider)))] in
      tryCatch (doDownloadUpdate updateInfoAndProvider)
               (fun e => let* e' := errorHandler e in throw e')
  end.

(** ** The AppImage download task *)

Definition isLinux (p : Platform) : bool :=
  match p with Linux => true | _ => false end.

Section AppImage.
(** [process.env.APPIMAGE], the differential downloader (old file, new
    file) and [httpExecutor.download] (new file): collaborators of the
    updater. *)
Variable APPIMAGE : option string.
Variable differentialDownload : string -> string -> M unit.
Variable httpExecutor_download : string -> M unit.
(** [findFile(provider.resolveFiles(info), "AppImage")] *)
Variable resolveFile : UpdateInfo -> ResolvedUpdateFileInfo.

(** The [task] closure of [AppImageUpdater.doDownloadUpdate];
    [CallFullDownload] records the call of [httpExecutor.download]. *)
Definition AppImage_task (updateFile : string) : M unit :=
  match APPIMAGE with
  | None =>
      throw (newError [Str "APPIMAGE env is not defined"]
                      "ERR_UPDATER_OLD_FILE_NOT_FOUND")
  | Some oldFile =>
      let* isDownloadFull :=
        tryCatch
          (let* _ := differentialDownload oldFile updateFile in ret false)
          (fun e =>
             let* _ := logger Error
               (Str "Cannot download differentially, fallback to full download: "
                :: message e) in
             (* during test (developer machine mac) we must throw error *)
             let* w := get in
             ret (isLinux (platform w))) in
      let* _ :=
        if isDownloadFull : bool then
          let* _ := effect (CallFullDownload updateFile) in
          httpExecutor_download updateFile
        else ret tt in
      chmod updateFile
  end.

(** [AppImageUpdater.doDownloadUpdate] *)
Definition AppImage_doDownloadUpdate
  (downloadUpdateOptions : UpdateInfoAndProvider) : M (list string) :=
  BaseUpdater_executeDownload
    {| fileExtension := "AppImage";
       fileInfo := resolveFile (info downloadUpdateOptions);
       taskUpdateInfo := info downloadUpdateOptions;
       packageFile := None;
       task := AppImage_task;
       done := fun _ _ => ret tt |}.

End AppImage.

(** ** checkForUpdates and the event loop *)

(** [doCheckForUpdates()] as seen at the call: the async function starts and
    hands back a pending promise.  The promise stands for the whole chain
    [doCheckForUpdates().then(..).catch(..)], whose last link is the object
    the callers receive. *)
Definition doCheckForUpdates : M nat :=
  let* w := get in
  let c := checks w in
  let p := nextPromise c in
  let* _ := modify (with_checks
    (mkChecks (checkForUpdatesPromise c) (<[p := Pending false]> (promises c))
              (S p) (providerRequests c))) in
  ret p.

Definition set_checkForUpdatesPromise (v : option nat) : M unit :=
  modify (fun w =>
    let c := checks w in
    with_checks (mkChecks v (promises c) (nextPromise c) (providerRequests c)) w).

(** [AppUpdater.checkForUpdates] *)
Definition checkForUpdates : M nat :=
  let* this := get in
  match checkForUpdatesPromise (checks this) with
  | Some checkForUpdatesPromise =>
      let* _ := logger Info [Str "Checking for update (already in progress)"] in
      ret checkForUpdatesPromise
  | None =>
      let* _ := logger Info [Str "Checking for update"] in
      let* checkForUpdatesPromise := doCheckForUpdates in
      let* _ := set_checkForUpdatesPromise (Some checkForUpdatesPromise) in
      ret checkForUpdatesPromise
  end.

(** The closure [nullizePromise]. *)
Definition nullizePromise : M unit := set_checkForUpdatesPromise None.

(** The pending check [p] calls [provider.getLatestVersion]; a check does so
    at most once. *)
Definition providerRoundTrip (p : nat) : M unit :=
  modify (fun w =>
    let c := checks w in
    match promises c !! p with
    | Some (Pending false) =>
        with_checks (mkChecks (checkForUpdatesPromise c)
                              (<[p := Pending true]> (promises c))
                              (nextPromise c) (S (providerRequests c))) w
    | _ => w
    end).

(** The pending check [p] settles: the [then] or the [catch] handler of
    [checkForUpdates] runs, and the promise the callers hold settles the same
    way.  A promise that is not pending does not settle again. *)
Definition checkSettles (p : nat) (s : Settlement) : M unit :=
  let* w := get in
  match promises (checks w) !! p with
  | Some (Pending _) =>
      let* _ :=
        match s with
        | Fulfilled _ => nullizePromise
        | Rejected e =>
            let* _ := nullizePromise in
            emit (EvError e)
        end in
      modify (fun w =>
        let c := checks w in
        with_checks (mkChecks (checkForUpdatesPromise c)
                              (<[p := Settled s]> (promises c))
                              (nextPromise c) (providerRequests c)) w)
  | _ => ret tt
  end.

(** What the event loop runs next. *)
Inductive LoopEvent : Type :=
| AppCallsCheckForUpdates
| ProviderRoundTrip (p : nat)
| CheckSettles (p : nat) (s : Settlement).

(** One turn of the loop; a call of [checkForUpdates] yields the promise it
    returned. *)
Definition loopStep (ev : LoopEvent) : M (option nat) :=
  match ev with
  | AppCallsCheckForUpdates => let* p := checkForUpdates in ret (Some p)
  | ProviderRoundTrip p => let* _ := providerRoundTrip p in ret None
  | CheckSettles p s => let* _ := checkSettles p s in ret None
  end.

(** The promises returned to the callers over a run of the loop. *)
Fixpoint runLoop (evs : list LoopEvent) : M (list nat) :=
  match evs with
  | [] => ret []
  | ev :: rest =>
      let* r := loopStep ev in
      let* rs := runLoop rest in
      ret (match r with Some p => p :: rs | None => rs end)
  end.

Definition settlesPromise (p : nat) (ev : LoopEvent) : bool :=
  match ev with
  | CheckSettles q _ => (q =? p)%nat
  | _ => false
  end.

(** The state of a fresh updater: no check has been started. *)
Definition noChecks : Checks := mkChecks None ∅ 0 0.

(** The only pending promise is the memoized one, and identities from
    [nextPromise] on are unused. *)
Definition checksConsistent (c : Checks) : Prop :=
  (forall q b, promises c !! q = Some (Pending b) ->
               checkForUpdatesPromise c = Some q)
  /\ (forall q, checkForUpdatesPromise c = Some q ->
                exists b, promises c !! q = Some (Pending b))
  /\ (forall q, (nextPromise c <= q)%nat -> promises c !! q = None).

(** ** A semver instance for examples: plain numeric triples *)

Fixpoint splitDots (cs : list ascii) (cur : list ascii)
  : list (list ascii) :=
  match cs with
  | [] => [cur]
  | c :: r =>
      if Ascii.eqb c "." then cur :: splitDots r [] else splitDots r (cur ++ [c])
  end.

(** A numeric identifier: digits only, no leading zero.  *)
Definition numericIdentifier (cs : list ascii) : option N :=
  match cs with
  | [] => None
  | "0"%char :: _ :: _ => None
  | _ =>
      if forallb (fun c => match decimalDigit c with Some _ => true | None => false end) cs
      then Z.to_N <$> readDigits cs 0%Z false
      else None
  end.

(** [MAJOR.MINOR.PATCH] with numeric identifiers and no pre-release or build
    part; on these texts (identifiers below 2^53) the semver package parses
    and orders the same way, in both modes.  Other texts are outside this
    instance. *)
Definition parseTriple (s : string) (loose : bool) : option (N * N * N) :=
  match splitDots (list_ascii_of_string s) [] with
  | [a; b; c] =>
      x ← numericIdentifier a; y ← numericIdentifier b;
      z ← numericIdentifier c; Some (x, y, z)
  | _ => None
  end.

Definition compareTriple (a b : N * N * N) : comparison :=
  let '(a1, a2, a3) := a in
  let '(b1, b2, b3) := b in
  match N.compare a1 b1 with
  | Eq => match N.compare a2 b2 with
          | Eq => N.compare a3 b3
          | c => c
          end
  | c => c
  end.

#[local] Instance TripleSemver : Semver :=
  {| SemVer := N * N * N;
     parseVersion := parseTriple;
     compareVersions := compareTriple |}.

(** The round trips still to come from the check [p]. *)
Definition roundTripsLeft (c : Checks) (p : nat) : nat :=
  match promises c !! p with
  | Some (Pending false) => 1
  | _ => 0
  end.

(** ** Reading a trace *)

(** The calls a trace records of the cache helper and of the download
    task. *)
Definition isCall (e : Effect) : bool :=
  match e with
  | CallSetDownloadedFile _ _ | CallTask _ => true
  | _ => false
  end.

Definition calls (t : list Effect) : list Effect := List.filter isCall t.

(** A computation that makes no such call: the download task and the [done]
    callback are handed neither the helper nor the task. *)
Definition quiet {A} (c : M A) : Prop :=
  forall w, calls (trace (snd (c w))) = calls (trace w).

(** How often "update-cancelled" was emitted. *)
Definition cancelledSignals (t : list Effect) : nat :=
  length (List.filter
            (fun e => match e with
                      | Emit (EvUpdateCancelled _) => true
                      | _ => false
                      end) t).

(** The errors emitted on the "error" channel. *)
Definition errorEvents (t : list Effect) : list JsError :=
  flat_map (fun e => match e with
                     | Emit (EvError err) => [err]
                     | _ => []
                     end) t.

Definition fullDownloads (t : list Effect) : list string :=
  flat_map (fun e => match e with
                     | CallFullDownload dest => [dest]
                     | _ => []
                     end) t.

(** ** Worlds to start from *)

(** The world after one more effect. *)
Definition after (e : Effect) (w : World) : World :=
  with_trace (trace w ++ [e]) w.

(** A freshly constructed updater, with the field initialisers of the class:
    [allowDowngrade = false], [useSemver = true], [_channel = null], no
    update info, no check in flight; the cache directory is empty. *)
Definition newAppUpdater (appVersion : string) (p : Platform) : World :=
  {| allowDowngrade := false;
     useSemver := SemverTrue;
     currentVersionString := appVersion;
     _channel := JsNull;
     updateInfoAndProvider := None;
     checks := noChecks;
     platform := p;
     cacheDir := ∅;
     sidecar := None;
     downloadedFile := None;
     trace := [] |}.

Definition with_allowDowngrade (a : bool) (w : World) : World :=
  with_channel (_channel w) a w.

Definition with_useSemver (u : UseSemver) (w : World) : World :=
  mkWorld (allowDowngrade w) u (currentVersionString w) (_channel w)
          (updateInfoAndProvider w) (checks w) (platform w) (cacheDir w)
          (sidecar w) (downloadedFile w) (trace w).

Definition with_updateInfoAndProvider (u : option UpdateInfoAndProvider)
  (w : World) : World :=
  mkWorld (allowDowngrade w) (useSemver w) (currentVersionString w)
          (_channel w) u (checks w) (platform w) (cacheDir w)
          (sidecar w) (downloadedFile w) (trace w).

(** The world after [removeFileIfAny]. *)
Definition cleared (w : World) : World :=
  with_helper None None (with_cacheDir ∅ w).

(** A manifest entry of the given version without staging percentage, for
    the scenarios of the specification on the numeric-triple instance. *)
Definition remote (v : string) : UpdateInfoAndProvider :=
  {| info := mkUpdateInfo v JsUndefined [];
     stagingUserId := Some "12a70172-80f8-5cc4-8131-28f5e0edd2a1" |}.

(** An updater whose first check is in flight. *)
Definition inFlightUpdater : World :=
  snd (checkForUpdates (newAppUpdater "1.0.0" Linux)).

(** [new CancellationError()] of builder-util-runtime. *)
Definition CancellationError : JsError :=
  {| isCancellation := true; message := [Str "cancelled"]; code := None |}.

(** An updater that found version 1.1.0. *)
Definition found_1_1_0 : UpdateInfoAndProvider :=
  {| info := mkUpdateInfo "1.1.0" JsUndefined ["app-1.1.0.AppImage"];
     stagingUserId := Some "12a70172-80f8-5cc4-8131-28f5e0edd2a1" |}.

Definition updaterWithUpdate (p : Platform) : World :=
  with_updateInfoAndProvider (Some found_1_1_0) (newAppUpdater "1.0.0" p).

(** A download that writes [n] bytes of the destination file. *)
Definition writeFile (dest : string) (n : N) : M unit :=
  modify (fun w => with_cacheDir (<[dest := n]> (cacheDir w)) w).

(** A download task that is cancelled after its first 4096 bytes. *)
Definition cancelledTask (dest : string) : M unit :=
  let* _ := writeFile dest 4096 in
  throw CancellationError.

(** A download task that writes the whole file of 65536 bytes. *)
Definition completeTask (dest : string) : M unit := writeFile dest 65536.

Definition sampleTask (t : string -> M unit) (u : UpdateInfoAndProvider)
  : DownloadExecutorTask :=
  {| fileExtension := "AppImage";
     fileInfo := mkFileInfo "/releases/app-1.1.0.AppImage" "c2hhNTEy";
     taskUpdateInfo := info u;
     packageFile := None;
     task := t;
     done := fun event downloaded =>
               emit (EvUpdateDownloaded event downloaded) |}.

(** A differential download that fails after writing 4096 bytes of the new
    file. *)
Definition failingDifferentialDownload (oldFile newFile : string) : M unit :=
  let* _ := writeFile newFile 4096 in
  throw (newError [Str "sha512 checksum mismatch"]
                  "ERR_CHECKSUM_MISMATCH").

(** * More of the updater *)

(** ** Strings *)

(** [String.prototype.toLowerCase] on the ASCII letters; bytes of other
    characters are left alone (no character outside ASCII lowers to a letter
    of the header names compared below). *)
Definition asciiLower (c : ascii) : ascii :=
  let n := nat_of_ascii c in
  if ((65 <=? n) && (n <=? 90))%nat then ascii_of_nat (n + 32) else c.

Fixpoint toLowerCase (s : string) : string :=
  match s with
  | EmptyString => EmptyString
  | String c r => String (asciiLower c) (toLowerCase r)
  end.

Fixpoint startsWith (s searchString : list ascii) : bool :=
  match searchString, s with
  | [], _ => true
  | _ :: _, [] => false
  | c :: r, d :: t => Ascii.eqb c d && startsWith t r
  end.

Fixpoint includes_chars (s searchString : list ascii) : bool :=
  startsWith s searchString
  || match s with
     | [] => false
     | _ :: t => includes_chars t searchString
     end.

(** [String.prototype.includes] *)
Definition includes (s searchString : string) : bool :=
  includes_chars (list_ascii_of_string s) (list_ascii_of_string searchString).

(** ** Request headers *)

(** An [OutgoingHttpHeaders] object, name to value. *)
Abbreviation Headers := (gmap string string).

(** [Object.keys(headers)] *)
Definition Object_keys (headers : Headers) : list string :=
  (map_to_list headers).*1.

(** [AppUpdater.addAuthHeader], on the field [requestHeaders]:
    [Object.assign({}, this.requestHeaders, { authorization: token })]. *)
Definition addAuthHeader (token : string) (requestHeaders : option Headers)
  : option Headers :=
  Some (<["authorization" := token]> (default ∅ requestHeaders)).

(** The loop of [isAddNoCacheQuery] over the header names. *)
Fixpoint isAddNoCacheQuery_loop (names : list string) : bool :=
  match names with
  | [] => true
  | headerName :: rest =>
      let s := toLowerCase headerName in
      if String.eqb s "authorization" || String.eqb s "private-token"
      then false
      else isAddNoCacheQuery_loop rest
  end.

(** The getter [AppUpdater.isAddNoCacheQuery]. *)
Definition isAddNoCacheQuery (requestHeaders : option Headers) : bool :=
  match requestHeaders with
  | None => true
  | Some headers => isAddNoCacheQuery_loop (Object_keys headers)
  end.

(** [AppUpdater.computeFinalHeaders]: [Object.assign(headers,
    this.requestHeaders)]. *)
Definition computeFinalHeaders (requestHeaders : option Headers)
  (headers : Headers) : Headers :=
  match requestHeaders with
  | Some r => r ∪ headers
  | None => headers
  end.

(** [AppUpdater.computeRequestHeaders]; the argument is
    [provider.fileExtraDownloadHeaders]. *)
Definition computeRequestHeaders (requestHeaders : option Headers)
  (fileExtraDownloadHeaders : option Headers) : Headers :=
  match fileExtraDownloadHeaders with
  | Some extra =>
      match requestHeaders with
      | None => extra
      | Some r => r ∪ extra
      end
  | None => computeFinalHeaders requestHeaders {["accept" := "*/*"]}
  end.

(** The headers [getUpdateInfoAndProvider] sets on the provider. *)
Definition updateInfoRequestHeaders (requestHeaders : option Headers)
  (stagingUserId : option string) : Headers :=
  computeFinalHeaders requestHeaders
    {["x-user-staging-id" := default "" stagingUserId]}.

(** ** providerFactory *)

(** [isUrlProbablySupportMultiRangeRequests] *)
Definition isUrlProbablySupportMultiRangeRequests (url : string) : bool :=
  negb (includes url "s3.amazonaws.com").

(** A publish configuration object with the fields the factory reads;
    [useMultipleRangeRequest] is absent ([None]) or a boolean, and
    [updateProvider] is the constructor of a custom provider, here the name
    it goes by. *)
Record PublishConfiguration : Type := mkPublishConfiguration {
  provider : string;
  url : string;
  useMultipleRangeRequest : option bool;
  updateProvider : option string
}.

(** [PublishConfiguration | AllPublishOptions | string] *)
Inductive AllPublishOptions : Type :=
| OptionsString (s : string)
| OptionsObject (data : PublishConfiguration).

(** [ProviderRuntimeOptions], without the executor. *)
Record ProviderRuntimeOptions : Type := mkRuntimeOptions {
  isUseMultipleRangeRequest : bool;
  runtimePlatform : Platform
}.

(** The provider objects the factory builds. *)
Inductive Provider : Type :=
| GenericProvider (configuration : PublishConfiguration)
                  (runtimeOptions : ProviderRuntimeOptions)
| CustomProvider (constructor : string) (options : PublishConfiguration)
                 (runtimeOptions : ProviderRuntimeOptions).

(** [createClient] *)
Definition createClient (data : AllPublishOptions)
  (runtimeOptions : ProviderRuntimeOptions) : JsError + Provider :=
  match data with
  | OptionsString _ =>
      inl (newError [Str "Please pass PublishConfiguration object"]
                    "ERR_UPDATER_INVALID_PROVIDER_CONFIGURATION")
  | OptionsObject data =>
      if String.eqb (provider data) "generic" then
        inr (GenericProvider data
               (mkRuntimeOptions
                  (negb (bool_decide (useMultipleRangeRequest data = Some false))
                   && isUrlProbablySupportMultiRangeRequests (url data))
                  (runtimePlatform runtimeOptions)))
      else if String.eqb (provider data) "custom" then
        match updateProvider data with
        | None =>
            inl (newError [Str "Custom provider not specified"]
                          "ERR_UPDATER_INVALID_PROVIDER_CONFIGURATION")
        | Some constructor => inr (CustomProvider constructor data runtimeOptions)
        end
      else
        inl (newError [Str "Unsupported provider: "; Str (provider data)]
                      "ERR_UPDATER_UNSUPPORTED_PROVIDER")
  end.

(** [createProviderRuntimeOptions] *)
Definition createProviderRuntimeOptions (p : Platform) : ProviderRuntimeOptions :=
  {| isUseMultipleRangeRequest := true; runtimePlatform := p |}.

(** [AppUpdater.setFeedURL]: the provider that [clientPromise] is resolved
    with, or the error thrown. *)
Definition setFeedURL (options : AllPublishOptions) (p : Platform)
  : JsError + Provider :=
  let runtimeOptions := createProviderRuntimeOptions p in
  match options with
  | OptionsString options =>
      inr (GenericProvider
             {| provider := "generic"; url := options;
                useMultipleRangeRequest := None; updateProvider := None |}
             (mkRuntimeOptions (isUrlProbablySupportMultiRangeRequests options)
                               (runtimePlatform runtimeOptions)))
  | OptionsObject _ => createClient options runtimeOptions
  end.

(** Whether the provider that was made, if one was, is told to use multiple
    range requests. *)
Definition usesMultipleRangeRequests (made : JsError + Provider)
  : option bool :=
  match made with
  | inr (GenericProvider _ r) | inr (CustomProvider _ _ r) =>
      Some (isUseMultipleRangeRequest r)
  | inl _ => None
  end.

(** A task that leaves no file behind. *)
Definition emptyTask (dest : string) : M unit := ret tt.

(** ** The updater with its remaining fields *)

(** The app adapter: [isPackaged] is read of an app that is not external
    only. *)
Record AppAdapter : Type := mkApp {
  isExternalApp : bool;
  isPackaged : bool;
  installPathForElevationCheck : option string
}.

(** [InstallOptions] *)
Record InstallOptions : Type := mkInstallOptions {
  installerPath : string;
  isSilent : bool;
  isForceRunAfter : bool;
  isAdminRightsRequired : bool
}.

(** What else an observer sees of the updater: the events of an update
    check, the start of the automatic download, the quit handler given to
    [app.onQuit], the quit that [setImmediate] schedules, and the calls of
    [doInstall]. *)
Inductive Signal : Type :=
| EvCheckingForUpdate
| EvUpdateAvailable (info : UpdateInfo)
| EvUpdateNotAvailable (info : UpdateInfo)
| DownloadStarted
| QuitHandlerRegistered
| QuitScheduled
| CallDoInstall (options : InstallOptions).

(** The fields of [AppUpdater] and [BaseUpdater] that [World] does not
    hold.  [helperFile] and [helperAdminRights] are what
    [downloadedUpdateHelper.file] and
    [downloadedUpdateHelper.downloadedFileInfo] give ([None] for null, also
    when there is no helper); of the file info, [install] reads
    [isAdminRightsRequired] only.  [journal] is kept oldest first, beside the
    trace of the world. *)
Record Updater : Type := mkUpdater {
  world : World;
  autoDownload : bool;
  autoInstallOnAppQuit : bool;
  installCalled : bool;
  quitHandlerAdded : bool;
  installPathElevationCheckEnabled : bool;
  helperFile : option string;
  helperAdminRights : option bool;
  journal : list Signal
}.

Definition with_world (w : World) (u : Updater) : Updater :=
  mkUpdater w (autoDownload u) (autoInstallOnAppQuit u) (installCalled u)
            (quitHandlerAdded u) (installPathElevationCheckEnabled u)
            (helperFile u) (helperAdminRights u) (journal u).

Definition with_installCalled (b : bool) (u : Updater) : Updater :=
  mkUpdater (world u) (autoDownload u) (autoInstallOnAppQuit u) b
            (quitHandlerAdded u) (installPathElevationCheckEnabled u)
            (helperFile u) (helperAdminRights u) (journal u).

Definition with_quitHandlerAdded (b : bool) (u : Updater) : Updater :=
  mkUpdater (world u) (autoDownload u) (autoInstallOnAppQuit u)
            (installCalled u) b (installPathElevationCheckEnabled u)
            (helperFile u) (helperAdminRights u) (journal u).

Definition with_journal (j : list Signal) (u : Updater) : Updater :=
  mkUpdater (world u) (autoDownload u) (autoInstallOnAppQuit u)
            (installCalled u) (quitHandlerAdded u)
            (installPathElevationCheckEnabled u)
            (helperFile u) (helperAdminRights u) j.

(** The monad over the whole updater, and the code over [World] inside it. *)
Definition U (A : Type) : Type := Updater -> Completion A * Updater.

Definition retU {A} (a : A) : U A := fun u => (Normal a, u).

Definition throwU {A} (e : JsError) : U A := fun u => (Throw e, u).

Definition bindU {A B} (c : U A) (k : A -> U B) : U B :=
  fun u =>
    match c u with
    | (Normal a, u') => k a u'
    | (Throw e, u') => (Throw e, u')
    end.

Definition getU : U Updater := fun u => (Normal u, u).

Definition modifyU (f : Updater -> Updater) : U unit :=
  fun u => (Normal tt, f u).

Definition liftM {A} (c : M A) : U A :=
  fun u => let (r, w) := c (world u) in (r, with_world w u).

Notation "'let+' x ':=' c 'in' k" := (bindU c (fun x => k))
  (at level 10, x name, c at level 100, k at level 200).

Definition signal (s : Signal) : U unit :=
  modifyU (fun u => with_journal (journal u ++ [s]) u).

(** An outcome that was settled elsewhere, taken up by the code. *)
Definition settled {A} (c : Completion A) : U A := fun u => (c, u).

(** ** isUpdaterActive *)

(** [AppUpdater.isUpdaterActive] *)
Definition isUpdaterActive (app : AppAdapter) : M bool :=
  if negb (isExternalApp app) && negb (isPackaged app) then
    let* _ := logger Info
      [Str "Skip checkForUpdatesAndNotify because application is not packed"] in
    ret false
  else ret true.

(** [AppImageUpdater.isUpdaterActive]; the first two arguments are
    [process.env.APPIMAGE] and [process.env.SNAP]. *)
Definition AppImage_isUpdaterActive (APPIMAGE SNAP : option string)
  (app : AppAdapter) : M bool :=
  if negb (isExternalApp app) && negb (bool_decide (is_Some APPIMAGE)) then
    let* _ :=
      match SNAP with
      | None => logger Warn
          [Str "APPIMAGE env is not defined, current application is not an AppImage"]
      | Some _ => logger Info [Str "SNAP env is defined, updater is disabled"]
      end in
    ret false
  else isUpdaterActive app.

(** ** doCheckForUpdates *)

(** The [downloadPromise] of an [UpdateCheckResult]: left out, null, or the
    promise of the download that was started. *)
Inductive DownloadPromise : Type :=
| DownloadPromiseUndefined
| DownloadPromiseNull
| DownloadPromiseOf.

(** [UpdateCheckResult]; [versionInfo] always equals [updateInfo] and is
    left out. *)
Record UpdateCheckResult : Type := mkCheckResult {
  updateInfo : option UpdateInfo;
  isUpdaterUnconfigured : bool;
  hasCancellationToken : bool;
  downloadPromise : DownloadPromise
}.

Section DoCheckForUpdates.
Context `{Semver}.
(** The provider objects, the outcome of [getProvider] and of the
    provider's [getLatestVersion], and the settled value of
    [stagingUserIdPromise]: results of the network and of the disk. *)
Variable ProviderObject : Type.
Variable getProvider : Completion (option ProviderObject).
Variable getLatestVersion : ProviderObject -> Completion UpdateInfo.
Variable stagingUserIdValue : option string.

(** [AppUpdater.getUpdateInfoAndProvider]; setting the request headers on
    the provider is left to [updateInfoRequestHeaders]. *)
Definition getUpdateInfoAndProvider (provider : ProviderObject)
  : U UpdateInfoAndProvider :=
  let+ latest := settled (getLatestVersion provider) in
  retU {| info := latest; stagingUserId := stagingUserIdValue |}.

(** [AppUpdater.onUpdateAvailable] *)
Definition onUpdateAvailable (updateInfo : UpdateInfo) : U unit :=
  let+ _ := liftM (logger Info
    [Str "Found version "; Str (version updateInfo); Str " (url: ";
     Str (String.concat ", " (files updateInfo)); Str ")"]) in
  signal (EvUpdateAvailable updateInfo).

(** The body of [AppUpdater.doCheckForUpdates], from its call to its
    settlement.  The download that [autoDownload] starts runs on its own;
    here it is recorded as started. *)
Definition doCheckForUpdates_body : U UpdateCheckResult :=
  let+ provider := settled getProvider in
  match provider with
  | None =>
      let+ this := getU in
      let+ _ := liftM (logger Info
        [Str "Update for version "; Str (currentVersionString (world this));
         Str " is not available (update provider is not configured)."]) in
      retU {| updateInfo := None; isUpdaterUnconfigured := true;
              hasCancellationToken := false;
              downloadPromise := DownloadPromiseUndefined |}
  | Some provider =>
      let+ _ := signal EvCheckingForUpdate in
      let+ result := getUpdateInfoAndProvider provider in
      let updateInfo := info result in
      let+ available := liftM (isUpdateAvailable result) in
      if negb available then
        let+ this := getU in
        let+ _ := liftM (logger Info
          (match useSemver (world this) with
           | SemverFalse =>
               [Str "Update for version ";
                Str (currentVersionString (world this));
                Str " is not available (latest version: ";
                Str (version updateInfo); Str ")."]
           | _ =>
               [Str "Update for version ";
                Str (currentVersionString (world this));
                Str " is not available (latest version: ";
                Str (version updateInfo); Str ", downgrade is ";
                Str (if allowDowngrade (world this)
                     then "allowed" else "disallowed");
                Str ")."]
           end)) in
        let+ _ := signal (EvUpdateNotAvailable updateInfo) in
        retU {| updateInfo := Some updateInfo; isUpdaterUnconfigured := false;
                hasCancellationToken := false;
                downloadPromise := DownloadPromiseUndefined |}
      else
        let+ _ := liftM (modify (with_updateInfoAndProvider (Some result))) in
        let+ _ := onUpdateAvailable updateInfo in
        let+ this := getU in
        let+ started :=
          if autoDownload this then
            let+ _ := signal DownloadStarted in retU DownloadPromiseOf
          else retU DownloadPromiseNull in
        retU {| updateInfo := Some updateInfo; isUpdaterUnconfigured := false;
                hasCancellationToken := true;
                downloadPromise := started |}
  end.

End DoCheckForUpdates.

(** The updater after construction, around a world: the field initialisers
    of [AppUpdater] and [BaseUpdater]. *)
Definition newUpdater (w : World) : Updater :=
  {| world := w;
     autoDownload := true;
     autoInstallOnAppQuit := true;
     installCalled := false;
     quitHandlerAdded := false;
     installPathElevationCheckEnabled :=
       match platform w with Win32 => true | _ => false end;
     helperFile := None;
     helperAdminRights := None;
     journal := [] |}.

(** ** BaseUpdater: install *)

(** [InstallResultTuple]: [willInstall] and, when there is one, the outcome
    of the promise [installed]. *)
Definition InstallResultTuple : Type := bool * option (Completion unit).

(** ToBoolean of the tuple: it is an array, and every object is truthy. *)
Definition tupleIsTruthy (r : InstallResultTuple) : bool := true.

Section Install.
Variable app : AppAdapter.
(** The abstract [doInstall], and whether writing the access test file next
    to the executable fails. *)
Variable doInstall : InstallOptions -> Completion InstallResultTuple.
Variable accessTestFails : bool.

(** [BaseUpdater.ensureDownloadedInstaller] *)
Definition ensureDownloadedInstaller : U (option (string * bool)) :=
  let verb := if isExternalApp app then "install" else "quit and install" in
  let+ this := getU in
  if installCalled this then
    let+ _ := liftM (logger Warn
      [Str "install call ignored: installCalled is set to true"]) in
    retU None
  else
    match helperFile this, helperAdminRights this with
    | Some installerPath, Some downloadedFileInfo =>
        (* prevent calling several times *)
        let+ _ := modifyU (with_installCalled true) in
        retU (Some (installerPath, downloadedFileInfo))
    | _, _ =>
        let+ _ := liftM (dispatchError
          (mkError false [Str "No valid update available, can't "; Str verb]
                   None)) in
        retU None
    end.

(** [BaseUpdater.install].  The promise [installed] is handed on with its
    [catch] handler, which is [dispatchError]; the handler runs where the
    promise is awaited. *)
Definition install (isSilent isForceRunAfter : bool) : U InstallResultTuple :=
  let+ download := ensureDownloadedInstaller in
  match download with
  | None => retU (false, None)
  | Some (installerPath, downloadedFileInfo) =>
      let+ this := getU in
      let installPathForElevationCheck :=
        if isExternalApp app then installPathForElevationCheck app
        else Some "process.execPath" in
      let installPathRequiresElevation :=
        if negb (isExternalApp app) && installPathElevationCheckEnabled this
        then (if accessTestFails then Some true
              else (fun _ => false) <$> installPathForElevationCheck)
        else (fun _ => false) <$> installPathForElevationCheck in
      let+ _ := liftM (logger Info
        [Str "Install: isSilent: "; Val (JsBoolean isSilent);
         Str ", isForceRunAfter: "; Val (JsBoolean isForceRunAfter);
         Str ", installPathRequiresElevation: ";
         match installPathRequiresElevation with
         | Some b => Val (JsBoolean b)
         | None => Str "N/A"
         end]) in
      let options :=
        {| installerPath := installerPath;
           isSilent := isSilent;
           isForceRunAfter := isForceRunAfter;
           isAdminRightsRequired :=
             match installPathRequiresElevation with
             | Some true => true
             | _ => downloadedFileInfo
             end |} in
      let+ _ := signal (CallDoInstall options) in
      match doInstall options with
      | Normal result => retU result
      | Throw e =>
          let+ _ := liftM (dispatchError e) in
          retU (false, None)
      end
  end.

(** [BaseUpdater.quitAndInstall] *)
Definition quitAndInstall (isSilent isForceRunAfter : bool) : U unit :=
  if isExternalApp app then
    throwU (mkError false
              [Str "App is external, quitAndInstall is not supported."] None)
  else
    let+ _ := liftM (logger Info [Str "Install on explicit quitAndInstall"]) in
    let+ isInstalled :=
      install isSilent (if isSilent then isForceRunAfter else true) in
    if tupleIsTruthy isInstalled then signal QuitScheduled
    else modifyU (with_installCalled false).

(** [BaseUpdater.installExternal]; the [finally] block runs on every way
    out of the [try]. *)
Definition installExternal (isSilent isForceRunAfter : bool) : U bool :=
  if negb (isExternalApp app) then
    throwU (mkError false
              [Str "App is not external; must use quitAndInstall instead to update the current app."]
              None)
  else
    let+ _ := liftM (logger Info [Str "Install with installExternal"]) in
    let+ result :=
      install isSilent (if isSilent then isForceRunAfter else true) in
    let '(willInstall, installed) := result in
    let+ answer :=
      if negb willInstall then retU false
      else
        let+ _ :=
          match installed with
          | Some (Throw e) => liftM (dispatchError e)
          | _ => retU tt
          end in
        retU true in
    let+ _ := modifyU (with_installCalled false) in
    retU answer.

(** The handler that [addQuitHandler] gives to [app.onQuit]. *)
Definition quitHandler (exitCode : Z) : U unit :=
  let+ this := getU in
  if installCalled this then
    liftM (logger Info
      [Str "Update installer has already been triggered. Quitting application."])
  else if negb (autoInstallOnAppQuit this) then
    liftM (logger Info
      [Str "Update will not be installed on quit because autoInstallOnAppQuit is set to false."])
  else if negb (exitCode =? 0)%Z then
    liftM (logger Info
      [Str "Update will be not installed on quit because application is quitting with exit code ";
       Val (JsNumber exitCode)])
  else
    let+ _ := liftM (logger Info [Str "Auto install update on quit"]) in
    let+ _ := install true false in
    retU tt.

(** [BaseUpdater.addQuitHandler] *)
Definition addQuitHandler : U unit :=
  let+ this := getU in
  if quitHandlerAdded this || negb (autoInstallOnAppQuit this)
     || isExternalApp app
  then retU tt
  else
    let+ _ := modifyU (with_quitHandlerAdded true) in
    signal QuitHandlerRegistered.

(** The [done] callback of [BaseUpdater.executeDownload]. *)
Definition BaseUpdater_done (event : UpdateInfo) (downloaded : string)
  : U unit :=
  let+ _ := liftM (emit (EvUpdateDownloaded event downloaded)) in
  addQuitHandler.

End Install.

Definition countSignal (p : Signal -> bool) (j : list Signal) : nat :=
  length (List.filter p j).

Definition isCallDoInstall (s : Signal) : bool :=
  match s with CallDoInstall _ => true | _ => false end.

Definition isQuitHandlerRegistered (s : Signal) : bool :=
  match s with QuitHandlerRegistered => true | _ => false end.

(** Scenario data for the install properties. *)
Definition packagedApp : AppAdapter :=
  {| isExternalApp := false; isPackaged := true;
     installPathForElevationCheck := None |}.

Definition externalApp : AppAdapter :=
  {| isExternalApp := true; isPackaged := false;
     installPathForElevationCheck := Some "/opt/other-app" |}.

(** An updater that holds a downloaded installer. *)
Definition withInstaller (path : string) (adminRights : bool) (u : Updater)
  : Updater :=
  mkUpdater (world u) (autoDownload u) (autoInstallOnAppQuit u)
            (installCalled u) (quitHandlerAdded u)
            (installPathElevationCheckEnabled u)
            (Some path) (Some adminRights) (journal u).

(** A [doInstall] that throws. *)
Definition failingDoInstall (options : InstallOptions)
  : Completion InstallResultTuple :=
  Throw (mkError false [Str "spawn EACCES"] (Some "EACCES")).

(** ** The staging user ID file *)

(** What reading the ID file gives, and the error, if any, that writing it
    meets. *)
Inductive FileState : Type :=
| FileMissing
| FileContent (content : string)
| FileUnreadable (e : JsError).

Record IdDisk : Type := mkIdDisk {
  idFile : FileState;
  writeError : option JsError
}.

Section StagingUserId.
(** [UUID.check] of builder-util-runtime, as a test of the text. *)
Variable UUID_check : string -> bool.

(** [AppUpdater.getOrCreateStagingUserId].  [file] is the path worked out
    from the app adapter (null for an external app without
    [stagingUserIdPath]); [generated] is the value of
    [UUID.v5(randomBytes(4096), UUID.OID)]. *)
Definition getOrCreateStagingUserId (file : option string)
  (generated : string) (disk : IdDisk) : M (option string * IdDisk) :=
  match file with
  | None => ret (None, disk)
  | Some file =>
      let* found :=
        match idFile disk with
        | FileContent id =>
            if UUID_check id then ret (Some id)
            else
              let* _ := logger Warn
                [Str "Staging user id file exists, but content was invalid: ";
                 Str id] in
              ret None
        | FileMissing => ret None
        | FileUnreadable e =>
            let* _ :=
              if negb (bool_decide (code e = Some "ENOENT")) then
                logger Warn
                  (Str "Couldn't read staging user ID, creating a blank one: "
                   :: message e)
              else ret tt in
            ret None
        end in
      match found with
      | Some id => ret (Some id, disk)
      | None =>
          let id := generated in
          let* _ := logger Info [Str "Generated new staging user ID: "; Str id] in
          match writeError disk with
          | None => ret (Some id, mkIdDisk (FileContent id) None)
          | Some e =>
              let* _ := logger Warn
                (Str "Couldn't write out staging user ID: " :: message e) in
              ret (Some id, disk)
          end
      end
  end.

End StagingUserId.

(** Modelled from the spec: [UUID.check] (uuid.ts is not among the sources),
    for the examples: the canonical text of a UUID. *)
Definition isCanonicalUUID (s : string) : bool :=
  bool_decide (is_Some (UUID_parse s)).

(** No "/" among the characters. *)
Definition noSlash (cs : list ascii) : bool :=
  forallb (fun c => negb (Ascii.eqb c "/")) cs.



(** ** The download notification *)

(** [String.prototype.replace] with a string pattern replaces the first
    occurrence only.  [splitAtFirst] gives the text before and after it. *)
Fixpoint splitAtFirst (s searchValue : list ascii)
  : option (list ascii * list ascii) :=
  if startsWith s searchValue then Some ([], skipn (length searchValue) s)
  else match s with
       | [] => None
       | c :: t =>
           match splitAtFirst t searchValue with
           | Some (before, after) => Some (c :: before, after)
           | None => None
           end
       end.

(** The replacement text of [replace] is a template of its own: "$$" is a
    dollar sign, "$&" the matched text, "$`" the text before the match and
    "$'" the text after it.  A string pattern has no capture groups, so a
    dollar sign before any other character stands for itself. *)
Fixpoint getSubstitution (matched before after replacement : list ascii)
  : list ascii :=
  match replacement with
  | [] => []
  | c :: r =>
      if Ascii.eqb c "$" then
        match r with
        | [] => [c]
        | d :: r' =>
            if Ascii.eqb d "$" then
              "$"%char :: getSubstitution matched before after r'
            else if Ascii.eqb d "&" then
              (matched ++ getSubstitution matched before after r')%list
            else if Ascii.eqb d "`" then
              (before ++ getSubstitution matched before after r')%list
            else if Ascii.eqb d "'" then
              (after ++ getSubstitution matched before after r')%list
            else c :: getSubstitution matched before after r
        end
      else c :: getSubstitution matched before after r
  end.

Definition String_replace (s searchValue replaceValue : string) : string :=
  match splitAtFirst (list_ascii_of_string s)
                     (list_ascii_of_string searchValue) with
  | None => s
  | Some (before, after) =>
      string_of_list_ascii
        (before
         ++ getSubstitution (list_ascii_of_string searchValue) before after
                            (list_ascii_of_string replaceValue)
         ++ after)%list
  end.

Record DownloadNotification := mkDownloadNotification {
  title : string;
  body : string
}.

Definition formatDownloadNotification (version appName : string)
  (downloadNotification : option DownloadNotification)
  : DownloadNotification :=
  let downloadNotification :=
    match downloadNotification with
    | None =>
        {| title := "A new update is ready to install";
           body := "{appName} version {version} has been downloaded and will be automatically installed on exit" |}
    | Some given => given
    end in
  {| title := String_replace
                (String_replace downloadNotification.(title)
                                "{appName}" appName)
                "{version}" version;
     body := String_replace
               (String_replace downloadNotification.(body)
                               "{appName}" appName)
               "{version}" version |}.

(** * Properties *)

Ltac run_monad :=
  unfold bind, get, modify, ret, throw, logger, emit, effect,
    set_checkForUpdatesPromise; simpl.

(** ** Bytes and the staging fraction *)

Lemma byteAt_range (buf : Buffer) (i : nat) (v : Z) :
  byteAt buf i = Some v -> (0 <= v <= 255)%Z.
Proof.
  unfold byteAt. destruct (nth_error buf i) as [b|]; simpl; [|discriminate].
  intros [= <-]. pose proof (Byte.to_N_bounded b). lia.
Qed.

Lemma readUInt32BE_range (buf : Buffer) (offset : nat) (val : Z) :
  readUInt32BE buf offset = Some val -> (0 <= val <= 0xffffffff)%Z.
Proof.
  unfold readUInt32BE.
  destruct (byteAt buf offset) as [a|] eqn:Ha; [|discriminate].
  destruct (byteAt buf (offset + 1)) as [b|] eqn:Hb; [|discriminate].
  destruct (byteAt buf (offset + 2)) as [c|] eqn:Hc; [|discriminate].
  destruct (byteAt buf (offset + 3)) as [d|] eqn:Hd; [|discriminate].
  intros [= <-].
  apply byteAt_range in Ha, Hb, Hc, Hd. lia.
Qed.

Lemma hexPairs_length_le (n : nat) :
  forall cs buf, (length cs <= n)%nat -> hexPairs cs = Some buf ->
                 length cs = (2 * length buf)%nat.
Proof.
  induction n as [|n IH]; intros cs buf Hn Hp.
  - destruct cs; simpl in Hn; [|lia]. injection Hp as <-. reflexivity.
  - destruct cs as [|hi [|lo r]]; simpl in Hp.
    + injection Hp as <-. reflexivity.
    + discriminate.
    + destruct (hexDigit hi) as [h|]; simpl in Hp; [|discriminate].
      destruct (hexDigit lo) as [l|]; simpl in Hp; [|discriminate].
      destruct (Byte.of_N (16 * h + l)) as [b|]; simpl in Hp; [|discriminate].
      destruct (hexPairs r) as [rest|] eqn:Hr; simpl in Hp; [|discriminate].
      injection Hp as <-. simpl in *.
      rewrite (IH r rest); [lia | lia | exact Hr].
Qed.

Lemma hexPairs_length (cs : list ascii) (buf : Buffer) :
  hexPairs cs = Some buf -> length cs = (2 * length buf)%nat.
Proof. apply (hexPairs_length_le (length cs)). lia. Qed.

Lemma UUID_parse_length (input : string) (buf : Buffer) :
  UUID_parse input = Some buf -> length buf = 16%nat.
Proof.
  unfold UUID_parse.
  destruct (list_ascii_of_string input) as [|a0 l]; [discriminate|].
  do 23 (destruct l as [|? l]; [discriminate|]).
  destruct (isDash _ && isDash _ && isDash _ && isDash _
            && (length l =? 12)%nat) eqn:Hc; [|discriminate].
  intros Hp. apply hexPairs_length in Hp.
  apply andb_prop in Hc as [_ Hl]. apply Nat.eqb_eq in Hl.
  rewrite length_app in Hp. simpl in Hp. lia.
Qed.

Lemma UUID_parse_readUInt32BE (input : string) (buf : Buffer) :
  UUID_parse input = Some buf -> exists val, readUInt32BE buf 12 = Some val.
Proof.
  intros Hp. apply UUID_parse_length in Hp.
  do 16 (destruct buf as [|? buf]; [discriminate|]).
  unfold readUInt32BE, byteAt. simpl. eauto.
Qed.

(** ** Rational comparisons *)

Lemma Qltb_lt (x y : Q) : Qltb x y = true <-> (x < y)%Q.
Proof.
  unfold Qltb. rewrite negb_true_iff.
  split.
  - intros Hb. apply Qnot_le_lt. intros Hle.
    apply Qle_bool_iff in Hle. congruence.
  - intros Hlt. destruct (Qle_bool y x) eqn:Hb; [|reflexivity].
    apply Qle_bool_iff in Hb. exfalso. exact (Qlt_not_le _ _ Hlt Hb).
Qed.

Lemma stagingFraction_nonneg (val : Z) :
  (0 <= val)%Z -> (0 <= stagingFraction val)%Q.
Proof.
  intros Hv. unfold stagingFraction, Qdiv, Qmult, Qle. simpl. lia.
Qed.

Lemma stagingFraction_below_one (val : Z) :
  (val < 0xffffffff)%Z -> (stagingFraction val < 1)%Q.
Proof.
  intros Hv. unfold stagingFraction, Qdiv, Qmult, Qlt. simpl. lia.
Qed.

Lemma stagingFraction_max : (stagingFraction 0xffffffff == 1)%Q.
Proof. reflexivity. Qed.

(** ** The staging gate *)

Lemma logger_eq (lvl : Level) (msg : Template) (w : World) :
  logger lvl msg w = (Normal tt, after (Log lvl msg) w).
Proof. reflexivity. Qed.

Lemma parseInt_nullish (raw : JsValue) :
  isNullish raw = true -> parseInt raw = None.
Proof. destruct raw; simpl; try discriminate; reflexivity. Qed.

(** With a numeric percentage and a UUID, the gate logs its numbers and
    answers by the comparison. *)
Lemma isStagingMatch_numeric (updateInfo : UpdateInfo) (id : string)
  (buf : Buffer) (P val : Z) (w : World) :
  parseInt (stagingPercentage updateInfo) = Some P ->
  UUID_parse id = Some buf ->
  readUInt32BE buf 12 = Some val ->
  isStagingMatch updateInfo (Some id) w =
  (Normal (Qltb (stagingFraction val) (inject_Z P / 100)),
   after (Log Info [Str "Staging percentage: "; Num (inject_Z P / 100);
                    Str ", percentage: "; Num (stagingFraction val);
                    Str ", user id: "; Str id]) w).
Proof.
  intros HP Hu Hr. unfold isStagingMatch.
  destruct (isNullish (stagingPercentage updateInfo)) eqn:Hn.
  - apply parseInt_nullish in Hn. congruence.
  - rewrite HP, Hu, Hr. reflexivity.
Qed.

(** The gate changes nothing but the log. *)
Lemma isStagingMatch_world (updateInfo : UpdateInfo) (id : option string)
  (w : World) :
  exists t, snd (isStagingMatch updateInfo id w) = with_trace t w.
Proof.
  unfold isStagingMatch.
  destruct (isNullish (stagingPercentage updateInfo)).
  { exists (trace w). destruct w; reflexivity. }
  destruct (parseInt (stagingPercentage updateInfo)) as [P|].
  2:{ eexists. reflexivity. }
  destruct id as [id|].
  2:{ eexists. reflexivity. }
  destruct (UUID_parse id) as [buf|].
  2:{ exists (trace w). destruct w; reflexivity. }
  destruct (readUInt32BE buf 12) as [val|].
  2:{ exists (trace w). destruct w; reflexivity. }
  eexists. reflexivity.
Qed.

(** C2 (as amended): for a persisted UUID and a numeric percentage P between
    0 and 100, the gate answers, and it passes exactly when F < P/100, where
    F is the last four bytes of the UUID, read as a big-endian unsigned
    32-bit integer, divided by 0xffffffff; F is at least 0, and below 1
    whenever those four bytes are not all 0xff. *)
Theorem staging_gate_iff_fraction (updateInfo : UpdateInfo) (id : string)
  (buf : Buffer) (P : Z) (w : World) :
  parseInt (stagingPercentage updateInfo) = Some P ->
  (0 <= P <= 100)%Z ->
  UUID_parse id = Some buf ->
  exists val b,
    readUInt32BE buf 12 = Some val
    /\ fst (isStagingMatch updateInfo (Some id) w) = Normal b
    /\ (b = true <-> (stagingFraction val < inject_Z P / 100)%Q)
    /\ (0 <= stagingFraction val)%Q
    /\ (val <> 0xffffffff%Z -> (stagingFraction val < 1)%Q).
Proof.
  intros HP _ Hu.
  destruct (UUID_parse_readUInt32BE _ _ Hu) as [val Hr].
  exists val, (Qltb (stagingFraction val) (inject_Z P / 100)).
  pose proof (readUInt32BE_range _ _ _ Hr) as Hrange.
  split; [exact Hr|].
  split; [rewrite (isStagingMatch_numeric _ _ _ _ _ _ HP Hu Hr); reflexivity|].
  split; [apply Qltb_lt|].
  split; [apply stagingFraction_nonneg; lia|].
  intros Hne. apply stagingFraction_below_one. lia.
Qed.

Lemma staging_gate_iff_fraction_witness :
  exists val b,
    readUInt32BE [Byte.x12; Byte.xa7; Byte.x01; Byte.x72; Byte.x80; Byte.xf8;
                  Byte.x5c; Byte.xc4; Byte.x81; Byte.x31; Byte.x28; Byte.xf5;
                  Byte.xe0; Byte.xed; Byte.xd2; Byte.xa1] 12 = Some val
    /\ fst (isStagingMatch (mkUpdateInfo "1.1.0" (JsString "90") [])
                           (Some "12a70172-80f8-5cc4-8131-28f5e0edd2a1")
                           (newAppUpdater "1.0.0" Win32)) = Normal b
    /\ (b = true <-> (stagingFraction val < inject_Z 90 / 100)%Q)
    /\ (0 <= stagingFraction val)%Q
    /\ (val <> 0xffffffff%Z -> (stagingFraction val < 1)%Q).
Proof.
  apply (staging_gate_iff_fraction
           (mkUpdateInfo "1.1.0" (JsString "90") [])
           "12a70172-80f8-5cc4-8131-28f5e0edd2a1" _ 90
           (newAppUpdater "1.0.0" Win32)).
  - reflexivity.
  - lia.
  - reflexivity.
Defined.

(** C2 (counterexample): for the UUID whose last four bytes are ff ff ff ff
    the fraction is 1, so F does not lie in [0,1). *)
Lemma staging_fraction_reaches_one :
  (buf ← UUID_parse "8f1c2a3e-5b6d-5e7f-9a0b-1c2dffffffff";
   readUInt32BE buf 12) = Some 0xffffffff%Z
  /\ (stagingFraction 0xffffffff == 1)%Q
  /\ ~ ((0 <= stagingFraction 0xffffffff)%Q
        /\ (stagingFraction 0xffffffff < 1)%Q).
Proof.
  split; [reflexivity|]. split; [reflexivity|].
  intros [_ Hlt]. revert Hlt. unfold stagingFraction, Qlt. simpl. lia.
Qed.

(** With P = 0 no install passes the gate. *)
Lemma staging_gate_zero_percent (updateInfo : UpdateInfo) (id : string)
  (buf : Buffer) (w : World) :
  parseInt (stagingPercentage updateInfo) = Some 0%Z ->
  UUID_parse id = Some buf ->
  fst (isStagingMatch updateInfo (Some id) w) = Normal false.
Proof.
  intros HP Hu.
  destruct (UUID_parse_readUInt32BE _ _ Hu) as [val Hr].
  rewrite (isStagingMatch_numeric _ _ _ _ _ _ HP Hu Hr). simpl.
  f_equal. destruct (Qltb _ _) eqn:Hb; [|reflexivity].
  apply Qltb_lt in Hb.
  pose proof (readUInt32BE_range _ _ _ Hr) as Hrange.
  exfalso. revert Hb. unfold stagingFraction, Qlt. simpl. lia.
Qed.

(** With P = 100 every install passes whose last four bytes are not all
    0xff. *)
Lemma staging_gate_full_percent (updateInfo : UpdateInfo) (id : string)
  (buf : Buffer) (val : Z) (w : World) :
  parseInt (stagingPercentage updateInfo) = Some 100%Z ->
  UUID_parse id = Some buf ->
  readUInt32BE buf 12 = Some val ->
  val <> 0xffffffff%Z ->
  fst (isStagingMatch updateInfo (Some id) w) = Normal true.
Proof.
  intros HP Hu Hr Hne.
  rewrite (isStagingMatch_numeric _ _ _ _ _ _ HP Hu Hr). simpl.
  f_equal. apply Qltb_lt.
  pose proof (readUInt32BE_range _ _ _ Hr) as Hrange.
  unfold stagingFraction, Qlt. simpl. lia.
Qed.

(** C3 (the failing input): with P = 100 the install whose UUID ends in
    ff ff ff ff does not pass the gate. *)
Theorem staging_gate_full_percent_max_uuid (w : World) :
  fst (isStagingMatch (mkUpdateInfo "1.1.0" (JsNumber 100) [])
                      (Some "8f1c2a3e-5b6d-5e7f-9a0b-1c2dffffffff") w)
  = Normal false.
Proof. reflexivity. Qed.

(** On binary64 the gate decides as on the rationals: at both ends of the
    range, and next to the thresholds of 1%, 50% and 99%. *)
Example stagingGate_binary64_agrees :
  forallb (fun pv => Bool.eqb (stagingGate_binary64 (fst pv) (snd pv))
                              (stagingGate (fst pv) (snd pv)))
    [(0, 0); (1, 0); (100, 0); (0, 0xffffffff); (99, 0xffffffff);
     (100, 0xffffffff); (100, 0xfffffffe);
     (1, 42949672); (1, 42949673); (50, 0x7fffffff); (50, 0x80000000);
     (99, 4252017622); (99, 4252017623); (90, 0xe0edd2a1)]%Z
  = true.
Proof. vm_compute. reflexivity. Qed.

(** On binary64, too, the quotient of 0xffffffff by itself is 1 and the gate
    of a full rollout is shut for it. *)
Example stagingGate_binary64_full_percent_max :
  stagingGate_binary64 100 0xffffffff = false
  /\ stagingGate_binary64 100 0xfffffffe = true.
Proof. vm_compute. split; reflexivity. Qed.

(** C9 (as amended): a staging percentage that is present but parses to NaN
    lets the update through with a warning; so does a null staging user ID
    when the percentage is present; an absent percentage lets the update
    through, and then nothing is logged. *)
Theorem staging_gate_fail_open (updateInfo : UpdateInfo)
  (id : option string) (w : World) :
  (isNullish (stagingPercentage updateInfo) = false ->
   parseInt (stagingPercentage updateInfo) = None ->
   isStagingMatch updateInfo id w =
   (Normal true,
    after (Log Warn [Str "Staging percentage is NaN: ";
                     Val (stagingPercentage updateInfo)]) w))
  /\ (isNullish (stagingPercentage updateInfo) = false ->
      exists msg,
        isStagingMatch updateInfo None w = (Normal true, after (Log Warn msg) w))
  /\ (isNullish (stagingPercentage updateInfo) = true ->
      isStagingMatch updateInfo id w = (Normal true, w)).
Proof.
  unfold isStagingMatch. repeat split.
  - intros -> ->. reflexivity.
  - intros ->. destruct (parseInt _); eexists; reflexivity.
  - intros ->. reflexivity.
Qed.

Lemma staging_gate_fail_open_witness :
  isStagingMatch (mkUpdateInfo "1.1.0" (JsString "ten") [])
                 (Some "12a70172-80f8-5cc4-8131-28f5e0edd2a1")
                 (newAppUpdater "1.0.0" Win32)
  = (Normal true,
     after (Log Warn [Str "Staging percentage is NaN: "; Val (JsString "ten")])
           (newAppUpdater "1.0.0" Win32))
  /\ (exists msg,
        isStagingMatch (mkUpdateInfo "1.1.0" (JsNumber 50) []) None
                       (newAppUpdater "1.0.0" Win32)
        = (Normal true, after (Log Warn msg) (newAppUpdater "1.0.0" Win32)))
  /\ isStagingMatch (mkUpdateInfo "1.1.0" JsUndefined [])
                    (Some "12a70172-80f8-5cc4-8131-28f5e0edd2a1")
                    (newAppUpdater "1.0.0" Win32)
     = (Normal true, newAppUpdater "1.0.0" Win32).
Proof.
  split; [|split].
  - apply (staging_gate_fail_open
             (mkUpdateInfo "1.1.0" (JsString "ten") [])); reflexivity.
  - apply (staging_gate_fail_open
             (mkUpdateInfo "1.1.0" (JsNumber 50) []) None); reflexivity.
  - apply (staging_gate_fail_open
             (mkUpdateInfo "1.1.0" JsUndefined [])); reflexivity.
Defined.

(** C9 (counterexample): with no staging user ID and no staging percentage
    in the manifest the gate passes and logs no warning. *)
Lemma staging_gate_null_id_no_warning :
  let r := isStagingMatch (mkUpdateInfo "1.1.0" JsUndefined []) None
                          (newAppUpdater "1.0.0" Win32) in
  fst r = Normal true
  /\ ~ (exists msg, In (Log Warn msg) (trace (snd r))).
Proof.
  split; [reflexivity|]. intros [msg []].
Qed.

(** ** The availability decision *)

Section AvailabilityProperties.
Context `{Semver}.

Lemma greater_not_less (a b : SemVer) :
  isVersionGreaterThan a b = true -> isVersionLessThan a b = false.
Proof.
  unfold isVersionGreaterThan, isVersionLessThan.
  destruct (compareVersions a b); congruence.
Qed.

Lemma less_not_greater (a b : SemVer) :
  isVersionLessThan a b = true -> isVersionGreaterThan a b = false.
Proof.
  unfold isVersionGreaterThan, isVersionLessThan.
  destruct (compareVersions a b); congruence.
Qed.

(** C1: in semver mode, a version that does not parse, on either side,
    fails the check with ERR_UPDATER_INVALID_VERSION; equal versions mean no
    update; otherwise, when the staging gate passes, a newer remote version
    is an update and an older one is an update exactly when
    [allowDowngrade] is true. *)
Theorem update_available_semver (u : UpdateInfoAndProvider) (w : World) :
  useSemver w <> SemverFalse ->
  let loose := isLoose (useSemver w) in
  let R := parseVersion (version (info u)) loose in
  let C := parseVersion (currentVersionString w) loose in
  (R = None \/ C = None ->
   exists e, isUpdateAvailable u w = (Throw e, w)
             /\ code e = Some "ERR_UPDATER_INVALID_VERSION")
  /\ (forall r c, R = Some r -> C = Some c ->
      (isVersionsEqual r c = true ->
       isUpdateAvailable u w = (Normal false, w))
      /\ (isVersionsEqual r c = false ->
          forall w', isStagingMatch (info u) (stagingUserId u) w
                     = (Normal true, w') ->
          (isVersionGreaterThan r c = true ->
           isUpdateAvailable u w = (Normal true, w'))
          /\ (isVersionLessThan r c = true ->
              isUpdateAvailable u w = (Normal (allowDowngrade w), w')))).
Proof.
  intros Hmode loose R C. subst loose R C.
  assert (Hcur : currentVersion w
                 = parseVersion (currentVersionString w)
                                (isLoose (useSemver w))).
  { unfold currentVersion. destruct (useSemver w); congruence. }
  assert (Hbody : isUpdateAvailable u w =
    match parseVersion (version (info u)) (isLoose (useSemver w)) with
    | None =>
        (Throw (newError
           [Str "This file could not be downloaded, or the latest version (from update server) does not have a valid semver version: ";
            Str (version (info u))] "ERR_UPDATER_INVALID_VERSION"), w)
    | Some latestVersion =>
        match parseVersion (currentVersionString w) (isLoose (useSemver w)) with
        | None =>
            (Throw (newError
               [Str "App version is not a valid semver version: ";
                Str (currentVersionString w)]
               "ERR_UPDATER_INVALID_VERSION"), w)
        | Some current =>
            if isVersionsEqual latestVersion current then (Normal false, w)
            else
              match isStagingMatch (info u) (stagingUserId u) w with
              | (Normal m, w') =>
                  if negb m then (Normal false, w')
                  else if isVersionGreaterThan latestVersion current
                       then (Normal true, w')
                       else (Normal (allowDowngrade w'
                                     && isVersionLessThan latestVersion current),
                             w')
              | (Throw e, w') => (Throw e, w')
              end
        end
    end).
  { unfold isUpdateAvailable, bind, get. rewrite Hcur.
    destruct (useSemver w) eqn:Hu; [congruence| |];
      (destruct (parseVersion (version (info u)) _); [|reflexivity];
       destruct (parseVersion (currentVersionString w) _); [|reflexivity];
       destruct (isVersionsEqual _ _); [reflexivity|];
       destruct (isStagingMatch _ _ w) as [[m|e] w']; [|reflexivity];
       destruct m; simpl; [|reflexivity];
       destruct (isVersionGreaterThan _ _); reflexivity). }
  split.
  - intros [HR | HC]; rewrite Hbody.
    + rewrite HR. eexists. split; reflexivity.
    + rewrite HC.
      destruct (parseVersion (version (info u)) _);
        eexists; split; reflexivity.
  - intros r c HR HC. rewrite Hbody, HR, HC. split.
    + intros ->. reflexivity.
    + intros -> w' Hgate. rewrite Hgate. simpl.
      destruct (isStagingMatch_world (info u) (stagingUserId u) w) as [t Ht].
      rewrite Hgate in Ht. simpl in Ht. subst w'.
      split.
      * intros ->. reflexivity.
      * intros Hlt. rewrite (less_not_greater _ _ Hlt), Hlt.
        simpl. rewrite andb_true_r. reflexivity.
Qed.

(** C4: with [useSemver] false the update is available exactly when the
    remote version string differs from the current one; nothing is parsed,
    the staging gate is not consulted (nothing is logged) and
    [allowDowngrade] plays no part. *)
Theorem update_available_raw_strings (u : UpdateInfoAndProvider)
  (w : World) :
  useSemver w = SemverFalse ->
  exists b,
    isUpdateAvailable u w = (Normal b, w)
    /\ (b = true <-> version (info u) <> currentVersionString w).
Proof.
  intros Hmode.
  exists (negb (String.eqb (version (info u)) (currentVersionString w))).
  split.
  - unfold isUpdateAvailable, bind, get. rewrite Hmode. reflexivity.
  - rewrite negb_true_iff. split.
    + intros Hb Heq. apply String.eqb_eq in Heq. congruence.
    + intros Hne. destruct (String.eqb _ _) eqn:Hb; [|reflexivity].
      apply String.eqb_eq in Hb. contradiction.
Qed.

End AvailabilityProperties.

Lemma update_available_semver_witness :
  (exists e, isUpdateAvailable (remote "build-43") (newAppUpdater "1.0.0" Linux)
             = (Throw e, newAppUpdater "1.0.0" Linux)
             /\ code e = Some "ERR_UPDATER_INVALID_VERSION")
  /\ isUpdateAvailable (remote "1.0.0") (newAppUpdater "1.0.0" Linux)
     = (Normal false, newAppUpdater "1.0.0" Linux)
  /\ isUpdateAvailable (remote "1.1.0") (newAppUpdater "1.0.0" Linux)
     = (Normal true, newAppUpdater "1.0.0" Linux)
  /\ isUpdateAvailable (remote "1.0.0") (newAppUpdater "1.1.0" Linux)
     = (Normal false, newAppUpdater "1.1.0" Linux)
  /\ isUpdateAvailable (remote "1.0.0")
                       (with_allowDowngrade true (newAppUpdater "1.1.0" Linux))
     = (Normal true, with_allowDowngrade true (newAppUpdater "1.1.0" Linux)).
Proof.
  split; [|split; [|split; [|split]]].
  - destruct (update_available_semver (remote "build-43")
                (newAppUpdater "1.0.0" Linux) ltac:(discriminate))
      as [Hinvalid _].
    apply Hinvalid. left. reflexivity.
  - destruct (update_available_semver (remote "1.0.0")
                (newAppUpdater "1.0.0" Linux) ltac:(discriminate))
      as [_ Hparsed].
    destruct (Hparsed (1, 0, 0)%N (1, 0, 0)%N eq_refl eq_refl) as [Hequal _].
    apply Hequal. reflexivity.
  - destruct (update_available_semver (remote "1.1.0")
                (newAppUpdater "1.0.0" Linux) ltac:(discriminate))
      as [_ Hparsed].
    destruct (Hparsed (1, 1, 0)%N (1, 0, 0)%N eq_refl eq_refl) as [_ Hdiffer].
    destruct (Hdiffer eq_refl _ eq_refl) as [Hnewer _].
    apply Hnewer. reflexivity.
  - destruct (update_available_semver (remote "1.0.0")
                (newAppUpdater "1.1.0" Linux) ltac:(discriminate))
      as [_ Hparsed].
    destruct (Hparsed (1, 0, 0)%N (1, 1, 0)%N eq_refl eq_refl) as [_ Hdiffer].
    destruct (Hdiffer eq_refl _ eq_refl) as [_ Holder].
    apply Holder. reflexivity.
  - destruct (update_available_semver (remote "1.0.0")
                (with_allowDowngrade true (newAppUpdater "1.1.0" Linux))
                ltac:(discriminate))
      as [_ Hparsed].
    destruct (Hparsed (1, 0, 0)%N (1, 1, 0)%N eq_refl eq_refl) as [_ Hdiffer].
    destruct (Hdiffer eq_refl _ eq_refl) as [_ Holder].
    apply Holder. reflexivity.
Defined.

Lemma update_available_raw_strings_witness :
  exists b,
    isUpdateAvailable (remote "build-43")
                      (with_useSemver SemverFalse (newAppUpdater "build-42" Linux))
    = (Normal b, with_useSemver SemverFalse (newAppUpdater "build-42" Linux))
    /\ (b = true <-> "build-43" <> "build-42").
Proof.
  apply (update_available_raw_strings (remote "build-43")
           (with_useSemver SemverFalse (newAppUpdater "build-42" Linux))).
  reflexivity.
Defined.

(** Non-semver mode, current "build-42", remote "build-43": available. *)
Example raw_strings_scenario :
  fst (isUpdateAvailable (remote "build-43")
         (with_useSemver SemverFalse (newAppUpdater "build-42" Linux)))
  = Normal true.
Proof. reflexivity. Qed.

(** ** The channel setter *)

(** C10: while the stored channel is null the setter accepts any value; once
    a channel is stored it throws ERR_UPDATER_INVALID_CHANNEL exactly for a
    value that is not a string or is the empty string, leaving the updater
    as it was; every assignment that does not throw stores the value and
    sets [allowDowngrade]. *)
Theorem channel_setter_validation (value : JsValue) (w : World) :
  (isNullish (_channel w) = true ->
   set_channel value w = (Normal tt, with_channel value true w))
  /\ (isNullish (_channel w) = false ->
      ((exists e, set_channel value w = (Throw e, w)
                  /\ code e = Some "ERR_UPDATER_INVALID_CHANNEL")
       <-> (isString value = false \/ value = JsString "")))
  /\ (forall w', set_channel value w = (Normal tt, w') ->
      _channel w' = value /\ allowDowngrade w' = true).
Proof.
  unfold set_channel, bind, get. simpl.
  destruct (isNullish (_channel w)) eqn:Hn; simpl.
  - split; [reflexivity|]. split; [discriminate|].
    intros w' [= <-]. split; reflexivity.
  - split; [discriminate|].
    destruct value as [| |b|z| |s|]; simpl;
      try (split;
           [intros _; split;
            [intros _; left; reflexivity
            |intros _; eexists; split; reflexivity]
           |discriminate]).
    destruct s as [|c s]; simpl.
    + split; [|discriminate]. intros _. split.
      * intros _. right. reflexivity.
      * intros _. eexists. split; reflexivity.
    + split.
      * intros _. split.
        -- intros [e [He _]]. discriminate.
        -- intros [Hs | Hs]; discriminate.
      * intros w' [= <-]. split; reflexivity.
Qed.

Lemma channel_setter_validation_witness :
  set_channel (JsString "") (newAppUpdater "1.0.0" Linux)
  = (Normal tt, with_channel (JsString "") true (newAppUpdater "1.0.0" Linux))
  /\ (exists e,
        set_channel (JsNumber 7)
                    (with_channel (JsString "beta") true
                                  (newAppUpdater "1.0.0" Linux))
        = (Throw e, with_channel (JsString "beta") true
                                 (newAppUpdater "1.0.0" Linux))
        /\ code e = Some "ERR_UPDATER_INVALID_CHANNEL")
  /\ _channel (with_channel (JsString "alpha") true
                 (with_channel (JsString "beta") true
                               (newAppUpdater "1.0.0" Linux)))
     = JsString "alpha".
Proof.
  split; [|split].
  - apply (channel_setter_validation (JsString "")
             (newAppUpdater "1.0.0" Linux)). reflexivity.
  - apply (channel_setter_validation (JsNumber 7)
             (with_channel (JsString "beta") true
                           (newAppUpdater "1.0.0" Linux)));
      [reflexivity | left; reflexivity].
  - apply (channel_setter_validation (JsString "alpha")
             (with_channel (JsString "beta") true
                           (newAppUpdater "1.0.0" Linux))
             ). reflexivity.
Defined.

(** ** checkForUpdates: one check in flight *)

(** A call made while a check is in flight returns the memoized promise and
    only logs. *)
Lemma checkForUpdates_in_flight (w : World) (p : nat) :
  checkForUpdatesPromise (checks w) = Some p ->
  checkForUpdates w
  = (Normal p, after (Log Info [Str "Checking for update (already in progress)"]) w).
Proof.
  intros Hm. unfold checkForUpdates. run_monad. rewrite Hm. reflexivity.
Qed.

(** A call made while no check is in flight starts one. *)
Lemma checkForUpdates_fresh (w : World) :
  checkForUpdatesPromise (checks w) = None ->
  exists w',
    checkForUpdates w = (Normal (nextPromise (checks w)), w')
    /\ checks w' = mkChecks (Some (nextPromise (checks w)))
                            (<[nextPromise (checks w) := Pending false]>
                               (promises (checks w)))
                            (S (nextPromise (checks w)))
                            (providerRequests (checks w)).
Proof.
  intros Hm. unfold checkForUpdates, doCheckForUpdates. run_monad.
  rewrite Hm. simpl. eexists. split; reflexivity.
Qed.

Lemma checksConsistent_noChecks : checksConsistent noChecks.
Proof.
  unfold checksConsistent, noChecks. simpl. split; [|split].
  - intros q b Hq. rewrite lookup_empty in Hq. discriminate.
  - intros q Hq. discriminate.
  - intros q _. apply lookup_empty.
Qed.

(** While the check [p] is in flight, a turn of the loop that does not
    settle [p] keeps it in flight, returns [p] to a caller, starts no check
    and spends at most the one round trip of [p]. *)
Lemma loopStep_in_flight (ev : LoopEvent) (w : World) (p : nat) :
  checksConsistent (checks w) ->
  checkForUpdatesPromise (checks w) = Some p ->
  settlesPromise p ev = false ->
  exists r w',
    loopStep ev w = (Normal r, w')
    /\ (r = None \/ r = Some p)
    /\ (ev = AppCallsCheckForUpdates -> r = Some p /\ checks w' = checks w)
    /\ checksConsistent (checks w')
    /\ checkForUpdatesPromise (checks w') = Some p
    /\ nextPromise (checks w') = nextPromise (checks w)
    /\ (providerRequests (checks w') + roundTripsLeft (checks w') p
        = providerRequests (checks w) + roundTripsLeft (checks w) p)%nat.
Proof.
  intros Hc Hm Hev. destruct ev as [|q|q s]; simpl.
  - unfold bind. rewrite (checkForUpdates_in_flight w p Hm). simpl.
    exists (Some p). eexists. split; [reflexivity|].
    repeat split; auto; apply Hc.
  - unfold providerRoundTrip. run_monad.
    exists None. eexists. split; [reflexivity|].
    split; [left; reflexivity|]. split; [discriminate|].
    destruct (promises (checks w) !! q) as [[[|]|s]|] eqn:Hq; simpl;
      try (repeat split; auto; apply Hc).
    assert (q = p) as ->.
    { destruct Hc as [Hc1 _]. specialize (Hc1 _ _ Hq). congruence. }
    destruct Hc as (Hc1 & Hc2 & Hc3).
    split; [|split; [exact Hm|split; [reflexivity|]]].
    + unfold checksConsistent. simpl. split; [|split].
      * intros q b Hb. destruct (decide (p = q)) as [<-|Hne]; [exact Hm|].
        rewrite lookup_insert_ne in Hb by exact Hne. eapply Hc1; eauto.
      * intros q Hqm. assert (q = p) as -> by congruence.
        exists true. apply lookup_insert_eq.
      * intros q Hle. destruct (decide (p = q)) as [<-|Hne].
        -- rewrite (Hc3 p Hle) in Hq. discriminate.
        -- rewrite lookup_insert_ne by exact Hne. apply Hc3. exact Hle.
    + unfold roundTripsLeft. simpl. rewrite lookup_insert_eq, Hq. lia.
  - simpl in Hev. apply Nat.eqb_neq in Hev.
    unfold checkSettles. run_monad.
    destruct (promises (checks w) !! q) as [[b|s']|] eqn:Hq; simpl.
    + exfalso. destruct Hc as [Hc1 _]. specialize (Hc1 _ _ Hq). congruence.
    + exists None. eexists. split; [reflexivity|].
      split; [left; reflexivity|]. split; [discriminate|]. auto.
    + exists None. eexists. split; [reflexivity|].
      split; [left; reflexivity|]. split; [discriminate|]. auto.
Qed.

Lemma runLoop_in_flight (evs : list LoopEvent) :
  forall (w : World) (p : nat),
    checksConsistent (checks w) ->
    checkForUpdatesPromise (checks w) = Some p ->
    forallb (fun ev => negb (settlesPromise p ev)) evs = true ->
    exists ps w',
      runLoop evs w = (Normal ps, w')
      /\ Forall (eq p) ps
      /\ checksConsistent (checks w')
      /\ checkForUpdatesPromise (checks w') = Some p
      /\ nextPromise (checks w') = nextPromise (checks w)
      /\ (providerRequests (checks w') + roundTripsLeft (checks w') p
          = providerRequests (checks w) + roundTripsLeft (checks w) p)%nat.
Proof.
  induction evs as [|ev evs IH]; intros w p Hc Hm Hall.
  - exists [], w. simpl. split; [reflexivity|]. split; [constructor|]. auto.
  - simpl in Hall. apply andb_prop in Hall as [Hev Hall].
    apply negb_true_iff in Hev.
    destruct (loopStep_in_flight ev w p Hc Hm Hev)
      as (r & w1 & Hstep & Hr & _ & Hc1 & Hm1 & Hn1 & Hq1).
    destruct (IH w1 p Hc1 Hm1 Hall)
      as (ps & w' & Hrun & Hps & Hc' & Hm' & Hn' & Hq').
    exists (match r with Some q => q :: ps | None => ps end), w'.
    split.
    { simpl. unfold bind at 1. rewrite Hstep.
      unfold bind at 1. rewrite Hrun. reflexivity. }
    split.
    { destruct Hr as [-> | ->]; [exact Hps | constructor; auto]. }
    split; [exact Hc'|]. split; [exact Hm'|]. split; [congruence|]. lia.
Qed.

(** When the check in flight settles, the memo is cleared and the promise
    keeps its settlement. *)
Lemma checkSettles_in_flight (w : World) (p : nat) (s : Settlement) :
  checksConsistent (checks w) ->
  checkForUpdatesPromise (checks w) = Some p ->
  exists w',
    checkSettles p s w = (Normal tt, w')
    /\ checks w' = mkChecks None (<[p := Settled s]> (promises (checks w)))
                            (nextPromise (checks w))
                            (providerRequests (checks w))
    /\ checksConsistent (checks w').
Proof.
  intros (Hc1 & Hc2 & Hc3) Hm.
  destruct (Hc2 p Hm) as [b Hp].
  assert (Hcons : checksConsistent
            (mkChecks None (<[p := Settled s]> (promises (checks w)))
                      (nextPromise (checks w)) (providerRequests (checks w)))).
  { unfold checksConsistent. simpl. split; [|split].
    - intros q b' Hq. destruct (decide (p = q)) as [<-|Hne].
      + rewrite lookup_insert_eq in Hq. discriminate.
      + rewrite lookup_insert_ne in Hq by exact Hne.
        specialize (Hc1 _ _ Hq). congruence.
    - discriminate.
    - intros q Hle. destruct (decide (p = q)) as [<-|Hne].
      + rewrite (Hc3 p Hle) in Hp. discriminate.
      + rewrite lookup_insert_ne by exact Hne. apply Hc3. exact Hle. }
  unfold checkSettles, nullizePromise. run_monad. rewrite Hp.
  destruct s as [it|e]; simpl; eexists; (split; [reflexivity|]);
    simpl; split; try reflexivity; exact Hcons.
Qed.

(** Every turn of the loop keeps the promise store consistent, so every
    state the updater reaches from its construction is. *)
Lemma loopStep_consistent (ev : LoopEvent) (w : World) :
  checksConsistent (checks w) ->
  checksConsistent (checks (snd (loopStep ev w))).
Proof.
  intros Hc.
  destruct (checkForUpdatesPromise (checks w)) as [p|] eqn:Hm.
  - destruct (settlesPromise p ev) eqn:Hev.
    + destruct ev as [|q|q s]; try discriminate.
      simpl in Hev. apply Nat.eqb_eq in Hev. subst q.
      destruct (checkSettles_in_flight w p s Hc Hm) as (w' & Hs & _ & Hc').
      simpl. unfold bind. rewrite Hs. exact Hc'.
    + destruct (loopStep_in_flight ev w p Hc Hm Hev)
        as (r & w' & Hstep & _ & _ & Hc' & _).
      rewrite Hstep. exact Hc'.
  - destruct Hc as (Hc1 & Hc2 & Hc3).
    assert (Hnone : forall q, promises (checks w) !! q <> Some (Pending false)
                              /\ promises (checks w) !! q <> Some (Pending true)).
    { intros q. split; intros Hq; specialize (Hc1 _ _ Hq); congruence. }
    destruct ev as [|q|q s]; simpl.
    + destruct (checkForUpdates_fresh w Hm) as (w' & Hcall & Hw').
      unfold bind. rewrite Hcall. simpl. rewrite Hw'.
      unfold checksConsistent. simpl. split; [|split].
      * intros q b Hq.
        destruct (decide (nextPromise (checks w) = q)) as [<-|Hne];
          [reflexivity|].
        rewrite lookup_insert_ne in Hq by exact Hne.
        specialize (Hc1 _ _ Hq). congruence.
      * intros q [= <-]. exists false. apply lookup_insert_eq.
      * intros q Hle. rewrite lookup_insert_ne by lia. apply Hc3. lia.
    + unfold providerRoundTrip. run_monad.
      destruct (promises (checks w) !! q) as [[[|]|s]|] eqn:Hq; simpl;
        try (split; [|split]; assumption).
      destruct (Hnone q) as [Hf _]. contradiction.
    + unfold checkSettles. run_monad.
      destruct (promises (checks w) !! q) as [[b|s']|] eqn:Hq; simpl;
        try (split; [|split]; assumption).
      destruct (Hnone q) as [Hf Ht]. destruct b; contradiction.
Qed.

Lemma runLoop_consistent (evs : list LoopEvent) :
  forall w, checksConsistent (checks w) ->
            checksConsistent (checks (snd (runLoop evs w))).
Proof.
  induction evs as [|ev evs IH]; intros w Hc; [exact Hc|].
  simpl. unfold bind at 1.
  pose proof (loopStep_consistent ev w Hc) as Hc1.
  destruct (loopStep ev w) as [[r|e] w1]; simpl in *; [|exact Hc1].
  unfold bind at 1. specialize (IH w1 Hc1).
  destruct (runLoop evs w1) as [[rs|e] w2]; simpl in *; exact IH.
Qed.

(** C5: while a check is outstanding, every further call of checkForUpdates
    returns the same promise, starts no check and causes no round trip to the
    provider (over any run of the loop that does not settle the check, all
    callers get that promise and the provider is asked at most the one time
    the outstanding check asks it); once the check settles, by resolving or
    by rejecting, the memo is cleared and the next call starts a fresh check
    with a new promise. *)
Theorem checkForUpdates_single_flight (w : World) (p : nat) :
  checksConsistent (checks w) ->
  checkForUpdatesPromise (checks w) = Some p ->
  (exists w', checkForUpdates w = (Normal p, w') /\ checks w' = checks w)
  /\ (forall evs,
        forallb (fun ev => negb (settlesPromise p ev)) evs = true ->
        exists ps w',
          runLoop evs w = (Normal ps, w')
          /\ Forall (eq p) ps
          /\ checksConsistent (checks w')
          /\ checkForUpdatesPromise (checks w') = Some p
          /\ nextPromise (checks w') = nextPromise (checks w)
          /\ (providerRequests (checks w')
              <= providerRequests (checks w) + roundTripsLeft (checks w) p)%nat)
  /\ (forall s,
        exists w1 q w2,
          checkSettles p s w = (Normal tt, w1)
          /\ checkForUpdatesPromise (checks w1) = None
          /\ promises (checks w1) !! p = Some (Settled s)
          /\ checkForUpdates w1 = (Normal q, w2)
          /\ q <> p
          /\ promises (checks w) !! q = None
          /\ promises (checks w2) !! q = Some (Pending false)
          /\ checkForUpdatesPromise (checks w2) = Some q
          /\ nextPromise (checks w2) = S (nextPromise (checks w))).
Proof.
  intros Hc Hm. split; [|split].
  - rewrite (checkForUpdates_in_flight w p Hm). eexists. split; reflexivity.
  - intros evs Hall.
    destruct (runLoop_in_flight evs w p Hc Hm Hall)
      as (ps & w' & Hrun & Hps & Hc' & Hm' & Hn' & Hq').
    exists ps, w'. repeat (split; [assumption|]). lia.
  - intros s.
    destruct (checkSettles_in_flight w p s Hc Hm) as (w1 & Hs & Hw1 & Hc1).
    assert (Hm1 : checkForUpdatesPromise (checks w1) = None)
      by (rewrite Hw1; reflexivity).
    destruct (checkForUpdates_fresh w1 Hm1) as (w2 & Hcall & Hw2).
    destruct Hc as (Hc1' & Hc2 & Hc3). destruct (Hc2 p Hm) as [b Hp].
    assert (Hlt : (p < nextPromise (checks w))%nat).
    { destruct (Nat.lt_ge_cases p (nextPromise (checks w))) as [Hlt|Hge];
        [exact Hlt|]. rewrite (Hc3 p Hge) in Hp. discriminate. }
    exists w1, (nextPromise (checks w1)), w2.
    rewrite Hw2. rewrite Hw1. simpl.
    split; [exact Hs|]. split; [reflexivity|].
    split; [apply lookup_insert_eq|].
    split; [rewrite Hw1 in Hcall; exact Hcall|].
    split; [lia|]. split; [apply Hc3; lia|].
    split; [apply lookup_insert_eq|]. split; reflexivity.
Qed.

Lemma checkForUpdates_single_flight_witness :
  (exists w', checkForUpdates inFlightUpdater = (Normal 0%nat, w')
              /\ checks w' = checks inFlightUpdater)
  /\ (forall evs,
        forallb (fun ev => negb (settlesPromise 0 ev)) evs = true ->
        exists ps w',
          runLoop evs inFlightUpdater = (Normal ps, w')
          /\ Forall (eq 0%nat) ps
          /\ checksConsistent (checks w')
          /\ checkForUpdatesPromise (checks w') = Some 0%nat
          /\ nextPromise (checks w') = nextPromise (checks inFlightUpdater)
          /\ (providerRequests (checks w')
              <= providerRequests (checks inFlightUpdater)
                 + roundTripsLeft (checks inFlightUpdater) 0)%nat)
  /\ (forall s,
        exists w1 q w2,
          checkSettles 0 s inFlightUpdater = (Normal tt, w1)
          /\ checkForUpdatesPromise (checks w1) = None
          /\ promises (checks w1) !! 0%nat = Some (Settled s)
          /\ checkForUpdates w1 = (Normal q, w2)
          /\ q <> 0%nat
          /\ promises (checks inFlightUpdater) !! q = None
          /\ promises (checks w2) !! q = Some (Pending false)
          /\ checkForUpdatesPromise (checks w2) = Some q
          /\ nextPromise (checks w2) = S (nextPromise (checks inFlightUpdater))).
Proof.
  apply (checkForUpdates_single_flight inFlightUpdater 0).
  - exact (runLoop_consistent [AppCallsCheckForUpdates]
             (newAppUpdater "1.0.0" Linux) checksConsistent_noChecks).
  - reflexivity.
Defined.

(** Ten calls in a row, as in the test "checkForUpdates several times": one
    promise, one check started, and a single round trip once the check asks
    the provider. *)
Example checkForUpdates_several_times :
  let evs := (repeat AppCallsCheckForUpdates 5 ++ [ProviderRoundTrip 0]
              ++ repeat AppCallsCheckForUpdates 5)%list in
  let r := runLoop evs (newAppUpdater "1.0.0" Linux) in
  fst r = Normal (repeat 0%nat 10)
  /\ nextPromise (checks (snd r)) = 1%nat
  /\ providerRequests (checks (snd r)) = 1%nat.
Proof. vm_compute. repeat split. Qed.

(** ** executeDownload: cache reuse, fresh download, cancellation *)

Lemma calls_snoc (t : list Effect) (e : Effect) :
  calls (t ++ [e]) = (calls t ++ (if isCall e then [e] else []))%list.
Proof.
  unfold calls. rewrite List.filter_app. simpl.
  destruct (isCall e); reflexivity.
Qed.

(** Validation answers, and it leaves the trace alone. *)
Lemma validateDownloadedPath_trace (updateFile : string)
  (updateInfo : UpdateInfo) (fileInfo : ResolvedUpdateFileInfo) (w : World) :
  exists cached w1,
    validateDownloadedPath updateFile updateInfo fileInfo w = (Normal cached, w1)
    /\ trace w1 = trace w.
Proof.
  unfold validateDownloadedPath, clear. run_monad.
  destruct (sidecar w) as [c|]; [|eauto].
  destruct (_ && _ && _); simpl; eauto.
Qed.

Lemma rename_trace (oldPath newPath : string) (w : World) :
  (exists w', rename oldPath newPath w = (Normal tt, w') /\ trace w' = trace w)
  \/ (exists e, rename oldPath newPath w = (Throw e, w)).
Proof.
  unfold rename. run_monad.
  destruct (cacheDir w !! oldPath); [left | right]; eauto.
Qed.

(** [removeFileIfAny] never fails and leaves an empty cache directory and a
    helper without record. *)
Lemma removeFileIfAny_eq (updateFile : string) (w : World) :
  removeFileIfAny updateFile w
  = (Normal tt, with_helper None None (with_cacheDir ∅ w)).
Proof.
  unfold removeFileIfAny, tryCatch, clear, unlink. run_monad.
  rewrite lookup_empty. reflexivity.
Qed.

(** The calls of the closure [done]. *)
Lemma executeDownload_done_calls (taskOptions : DownloadExecutorTask)
  (updateFile : string) (isSaveCache : bool) (w : World) :
  (forall i f, quiet (done taskOptions i f)) ->
  calls (trace (snd (executeDownload_done taskOptions updateFile isSaveCache w)))
  = (calls (trace w) ++ [CallSetDownloadedFile updateFile isSaveCache])%list.
Proof.
  intros Hdone. unfold executeDownload_done, setDownloadedFile. run_monad.
  match goal with
  | |- context [done taskOptions ?i ?f ?w0] =>
      pose proof (Hdone i f w0) as Hq;
      destruct (done taskOptions i f w0) as [[[]|e] w1]
  end; simpl in *; rewrite Hq, calls_snoc; reflexivity.
Qed.

(** [executeDownload] on a valid cache. *)
Lemma executeDownload_cached (taskOptions : DownloadExecutorTask)
  (w w1 : World) (cached : string) :
  validateDownloadedPath (getCacheUpdateFileName taskOptions)
    (taskUpdateInfo taskOptions) (fileInfo taskOptions) w
  = (Normal (Some cached), w1) ->
  executeDownload taskOptions w
  = executeDownload_done taskOptions cached false w1.
Proof.
  intros Hv. unfold executeDownload. unfold bind at 1. rewrite Hv.
  reflexivity.
Qed.

(** [executeDownload] without a valid cache, by the outcome of the download
    and the rename. *)
Lemma executeDownload_fresh (taskOptions : DownloadExecutorTask)
  (w w1 : World) :
  let updateFile := getCacheUpdateFileName taskOptions in
  let temp := "temp-" ++ updateFile in
  validateDownloadedPath updateFile (taskUpdateInfo taskOptions)
                         (fileInfo taskOptions) w
  = (Normal None, w1) ->
  executeDownload taskOptions w
  = match downloadAndRename taskOptions temp updateFile
            (snd (createTempUpdateFile temp w1)) with
    | (Normal _, w2) =>
        executeDownload_done taskOptions updateFile true
          (after (Log Info [Str "New version ";
                            Str (version (taskUpdateInfo taskOptions));
                            Str " has been downloaded to "; Str updateFile]) w2)
    | (Throw e, w2) =>
        (Throw e,
         if isCancellation e
         then after (Emit (EvUpdateCancelled (taskUpdateInfo taskOptions)))
                    (after (Log Info [Str "cancelled"]) (cleared w2))
         else cleared w2)
    end.
Proof.
  intros updateFile temp Hv. unfold executeDownload. fold updateFile temp.
  unfold bind at 1. rewrite Hv.
  unfold bind, tryCatch, createTempUpdateFile, modify, ret. simpl.
  destruct (downloadAndRename taskOptions temp updateFile _) as [[[]|e] w2].
  - reflexivity.
  - rewrite removeFileIfAny_eq. fold (cleared w2).
    destruct (isCancellation e); reflexivity.
Qed.

(** The calls of the [try] block. *)
Lemma downloadAndRename_calls (taskOptions : DownloadExecutorTask)
  (temp updateFile : string) (w : World) :
  (forall dest, quiet (task taskOptions dest)) ->
  calls (trace (snd (downloadAndRename taskOptions temp updateFile w)))
  = (calls (trace w) ++ [CallTask temp])%list.
Proof.
  intros Htask. unfold downloadAndRename. run_monad.
  match goal with
  | |- context [task taskOptions temp ?w0] =>
      pose proof (Htask temp w0) as Hq;
      destruct (task taskOptions temp w0) as [[[]|e] w2]
  end; simpl in *.
  - destruct (rename_trace temp updateFile w2)
      as [(w3 & Hr & Ht3) | (e & Hr)];
      rewrite Hr; simpl; [rewrite Ht3|];
      rewrite Hq, calls_snoc; reflexivity.
  - rewrite Hq, calls_snoc. reflexivity.
Qed.

(** C8: [setDownloadedFile] is called with [isSaveCache = false] exactly
    when [validateDownloadedPath] returned a cached file, and then no download
    task runs; it is called with [isSaveCache = true] exactly when validation
    returned null and the download task and the rename of the temp file
    succeeded.  The calls that [executeDownload] adds are spelt out. *)
Theorem setDownloadedFile_isSaveCache (taskOptions : DownloadExecutorTask)
  (w : World) :
  (forall dest, quiet (task taskOptions dest)) ->
  (forall i f, quiet (done taskOptions i f)) ->
  let updateFile := getCacheUpdateFileName taskOptions in
  let temp := "temp-" ++ updateFile in
  let validated :=
    validateDownloadedPath updateFile (taskUpdateInfo taskOptions)
                           (fileInfo taskOptions) w in
  let fresh :=
    downloadAndRename taskOptions temp updateFile
      (snd (createTempUpdateFile temp (snd validated))) in
  exists cachedUpdateFile new,
    fst validated = Normal cachedUpdateFile
    /\ calls (trace (snd (executeDownload taskOptions w)))
       = (calls (trace w) ++ new)%list
    /\ new = match cachedUpdateFile with
             | Some cached => [CallSetDownloadedFile cached false]
             | None =>
                 CallTask temp ::
                 match fst fresh with
                 | Normal _ => [CallSetDownloadedFile updateFile true]
                 | Throw _ => []
                 end
             end
    /\ (forall file, In (CallSetDownloadedFile file false) new
                     <-> cachedUpdateFile = Some file)
    /\ (forall file, In (CallSetDownloadedFile file true) new
                     <-> cachedUpdateFile = None /\ fst fresh = Normal tt
                         /\ file = updateFile)
    /\ (cachedUpdateFile <> None -> forall dest, ~ In (CallTask dest) new).
Proof.
  intros Htask Hdone updateFile temp validated fresh.
  destruct (validateDownloadedPath_trace updateFile (taskUpdateInfo taskOptions)
              (fileInfo taskOptions) w) as (cached & w1 & Hv & Ht1).
  subst validated fresh. rewrite Hv. cbn [fst snd].
  pose proof (downloadAndRename_calls taskOptions temp updateFile
                (snd (createTempUpdateFile temp w1)) Htask) as Hfresh.
  pose proof (executeDownload_fresh taskOptions w w1) as Hexec.
  cbv zeta in Hexec. fold updateFile temp in Hexec.
  remember (downloadAndRename taskOptions temp updateFile
              (snd (createTempUpdateFile temp w1))) as fresh eqn:Hf.
  exists cached. eexists. split; [reflexivity|].
  split; [|split; [reflexivity|]].
  - destruct cached as [cached|].
    + rewrite (executeDownload_cached taskOptions w w1 cached Hv).
      rewrite (executeDownload_done_calls _ _ _ _ Hdone), Ht1. reflexivity.
    + rewrite (Hexec Hv). simpl in Hfresh. rewrite Ht1 in Hfresh.
      destruct fresh as [[[]|e] w2]; cbn [fst snd] in *.
      * rewrite (executeDownload_done_calls _ _ _ _ Hdone).
        unfold after. simpl. rewrite calls_snoc. simpl.
        rewrite app_nil_r, Hfresh, <- app_assoc. reflexivity.
      * destruct (isCancellation e); unfold after, cleared; simpl;
          repeat rewrite calls_snoc; simpl;
          repeat rewrite app_nil_r; exact Hfresh.
  - destruct cached as [cached|]; simpl.
    + split; [|split].
      * intros file. split.
        -- intros [[= ->] | []]. reflexivity.
        -- intros [= ->]. left. reflexivity.
      * intros file. split.
        -- intros [[=] | []].
        -- intros [[=] _].
      * intros _ dest [[=] | []].
    + split; [|split].
      * intros file. split.
        -- intros [[=] | Hin]. destruct (fst fresh); simpl in Hin.
           ++ destruct Hin as [[=] | []].
           ++ destruct Hin.
        -- intros [=].
      * intros file. split.
        -- intros [[=] | Hin]. destruct (fst fresh) as [[]|e]; simpl in Hin.
           ++ destruct Hin as [[= ->] | []]. auto.
           ++ destruct Hin.
        -- intros (_ & -> & ->). right. left. reflexivity.
      * intros Hne. contradiction.
Qed.

Lemma setDownloadedFile_isSaveCache_witness :
  let taskOptions := sampleTask completeTask found_1_1_0 in
  let w := updaterWithUpdate Linux in
  let updateFile := getCacheUpdateFileName taskOptions in
  let temp := "temp-" ++ updateFile in
  let validated :=
    validateDownloadedPath updateFile (taskUpdateInfo taskOptions)
                           (fileInfo taskOptions) w in
  let fresh :=
    downloadAndRename taskOptions temp updateFile
      (snd (createTempUpdateFile temp (snd validated))) in
  exists cachedUpdateFile new,
    fst validated = Normal cachedUpdateFile
    /\ calls (trace (snd (executeDownload taskOptions w)))
       = (calls (trace w) ++ new)%list
    /\ new = match cachedUpdateFile with
             | Some cached => [CallSetDownloadedFile cached false]
             | None =>
                 CallTask temp ::
                 match fst fresh with
                 | Normal _ => [CallSetDownloadedFile updateFile true]
                 | Throw _ => []
                 end
             end
    /\ (forall file, In (CallSetDownloadedFile file false) new
                     <-> cachedUpdateFile = Some file)
    /\ (forall file, In (CallSetDownloadedFile file true) new
                     <-> cachedUpdateFile = None /\ fst fresh = Normal tt
                         /\ file = updateFile)
    /\ (cachedUpdateFile <> None -> forall dest, ~ In (CallTask dest) new).
Proof.
  apply (setDownloadedFile_isSaveCache (sampleTask completeTask found_1_1_0)
           (updaterWithUpdate Linux)).
  - intros dest w. reflexivity.
  - intros i f w. simpl. unfold emit, effect, modify. simpl.
    rewrite calls_snoc. apply app_nil_r.
Defined.

(** A first download saves the cache record; a second run of the same
    download finds the record and the file, runs no task and does not save
    again. *)
Example download_then_reuse :
  let taskOptions := sampleTask completeTask found_1_1_0 in
  let first := executeDownload taskOptions (updaterWithUpdate Linux) in
  let second := executeDownload taskOptions (with_trace [] (snd first)) in
  fst first = Normal ["app-1.1.0.AppImage"]
  /\ calls (trace (snd first))
     = [CallTask "temp-app-1.1.0.AppImage";
        CallSetDownloadedFile "app-1.1.0.AppImage" true]
  /\ fst second = Normal ["app-1.1.0.AppImage"]
  /\ calls (trace (snd second))
     = [CallSetDownloadedFile "app-1.1.0.AppImage" false].
Proof. vm_compute. repeat split. Qed.

(** C6: when the download task rejects with a CancellationError, the cache
    directory (the temp file with it) and the cache record are gone by the
    time the rejection leaves [downloadUpdate]; "update-cancelled" is emitted
    exactly once after the task's rejection and nothing is emitted on the
    "error" channel; the promise rejects with that same error. *)
Theorem cancelled_download_cleanup
  (options : UpdateInfoAndProvider -> DownloadExecutorTask)
  (w w1 w3 : World) (u : UpdateInfoAndProvider) (e : JsError) :
  let taskOptions := options u in
  let updateFile := getCacheUpdateFileName taskOptions in
  let temp := "temp-" ++ updateFile in
  updateInfoAndProvider w = Some u ->
  validateDownloadedPath updateFile (taskUpdateInfo taskOptions)
    (fileInfo taskOptions)
    (after (Log Info [Str "Downloading update from ";
                      Str (String.concat ", " (files (info u)))]) w)
  = (Normal None, w1) ->
  task taskOptions temp
       (after (CallTask temp) (snd (createTempUpdateFile temp w1)))
  = (Throw e, w3) ->
  isCancellation e = true ->
  exists w',
    downloadUpdate (fun u => executeDownload (options u)) w = (Throw e, w')
    /\ cacheDir w' !! temp = None
    /\ cacheDir w' !! updateFile = None
    /\ sidecar w' = None
    /\ downloadedFile w' = None
    /\ trace w'
       = (trace w3 ++ [Log Info [Str "cancelled"];
                       Emit (EvUpdateCancelled (taskUpdateInfo taskOptions))])%list
    /\ cancelledSignals (trace w') = S (cancelledSignals (trace w3))
    /\ errorEvents (trace w') = errorEvents (trace w3).
Proof.
  intros taskOptions updateFile temp Hu Hv Htask Hcancel.
  pose proof (executeDownload_fresh taskOptions _ w1 Hv) as Hexec.
  cbv zeta in Hexec. fold updateFile temp in Hexec.
  assert (Hfresh : downloadAndRename taskOptions temp updateFile
                     (snd (createTempUpdateFile temp w1)) = (Throw e, w3)).
  { unfold downloadAndRename. unfold bind at 1. unfold effect, modify.
    fold (after (CallTask temp) (snd (createTempUpdateFile temp w1))).
    unfold bind at 1. rewrite Htask. reflexivity. }
  rewrite Hfresh, Hcancel in Hexec.
  eexists. split.
  { unfold downloadUpdate. unfold bind at 1. unfold get. rewrite Hu.
    unfold bind at 1. rewrite logger_eq. unfold tryCatch.
    fold taskOptions. rewrite Hexec.
    unfold errorHandler, bind. rewrite Hcancel. reflexivity. }
  unfold after, cleared. simpl.
  split; [apply lookup_empty|]. split; [apply lookup_empty|].
  split; [reflexivity|]. split; [reflexivity|].
  split; [rewrite <- app_assoc; reflexivity|].
  split.
  - unfold cancelledSignals. rewrite !List.filter_app, !length_app. simpl. lia.
  - unfold errorEvents. rewrite !flat_map_app. simpl.
    rewrite !app_nil_r. reflexivity.
Qed.

Lemma cancelled_download_cleanup_witness :
  exists w',
    downloadUpdate (fun u => executeDownload (sampleTask cancelledTask u))
                   (updaterWithUpdate Win32)
    = (Throw CancellationError, w')
    /\ cacheDir w' !! "temp-app-1.1.0.AppImage" = None
    /\ cacheDir w' !! "app-1.1.0.AppImage" = None
    /\ sidecar w' = None
    /\ downloadedFile w' = None
    /\ cancelledSignals (trace w') = 1%nat
    /\ errorEvents (trace w') = [].
Proof.
  destruct (cancelled_download_cleanup (sampleTask cancelledTask)
              (updaterWithUpdate Win32) _ _ found_1_1_0 CancellationError
              eq_refl eq_refl eq_refl eq_refl)
    as (w' & Hrun & Htemp & Hfile & Hside & Hdown & _ & Hsignal & Herrors).
  exists w'.
  split; [exact Hrun|]. split; [exact Htemp|]. split; [exact Hfile|].
  split; [exact Hside|]. split; [exact Hdown|].
  split; [exact Hsignal | exact Herrors].
Defined.

(** ** The AppImage task: differential download and its fallback *)

Section AppImageProperties.
Variable oldFile : string.
Variable differentialDownload : string -> string -> M unit.
Variable httpExecutor_download : string -> M unit.
Variable resolveFile : UpdateInfo -> ResolvedUpdateFileInfo.

Let appImageTask :=
  AppImage_task (Some oldFile) differentialDownload httpExecutor_download.

(** On Linux every error of the differential download is answered by the
    full download of the new file. *)
Lemma AppImage_task_linux_fallback (updateFile : string) (w w1 : World)
  (e : JsError) :
  differentialDownload oldFile updateFile w = (Throw e, w1) ->
  platform w1 = Linux ->
  appImageTask updateFile w
  = (let* _ := httpExecutor_download updateFile in chmod updateFile)
      (after (CallFullDownload updateFile)
         (after (Log Error
                   (Str "Cannot download differentially, fallback to full download: "
                    :: message e)) w1)).
Proof.
  intros Hd Hp. unfold appImageTask, AppImage_task.
  unfold bind at 1. unfold tryCatch. unfold bind at 1. rewrite Hd.
  unfold bind at 1. rewrite logger_eq.
  unfold bind at 1. unfold get, ret.
  change (platform (after _ w1)) with (platform w1). rewrite Hp. simpl.
  unfold bind at 1. reflexivity.
Qed.

(** On any other platform the error is logged and dropped: no full
    download is made, and the task ends as [chmod] of the new file ends. *)
Lemma AppImage_task_no_fallback (updateFile : string) (w w1 : World)
  (e : JsError) :
  differentialDownload oldFile updateFile w = (Throw e, w1) ->
  platform w1 <> Linux ->
  appImageTask updateFile w
  = chmod updateFile
      (after (Log Error
                (Str "Cannot download differentially, fallback to full download: "
                 :: message e)) w1).
Proof.
  intros Hd Hp. unfold appImageTask, AppImage_task.
  unfold bind at 1. unfold tryCatch. unfold bind at 1. rewrite Hd.
  unfold bind at 1. rewrite logger_eq.
  unfold bind at 1. unfold get, ret.
  change (platform (after _ w1)) with (platform w1).
  destruct (platform w1); [contradiction| |]; reflexivity.
Qed.

(** So the task succeeds off Linux whenever the failed attempt left a file
    behind, whatever its content. *)
Lemma AppImage_task_silent_success (updateFile : string) (w w1 : World)
  (e : JsError) (size : N) :
  differentialDownload oldFile updateFile w = (Throw e, w1) ->
  platform w1 <> Linux ->
  cacheDir w1 !! updateFile = Some size ->
  exists w',
    appImageTask updateFile w = (Normal tt, w')
    /\ cacheDir w' = cacheDir w1
    /\ fullDownloads (trace w') = fullDownloads (trace w1).
Proof.
  intros Hd Hp Hfile.
  rewrite (AppImage_task_no_fallback updateFile w w1 e Hd Hp).
  unfold chmod, bind, get, ret. simpl. rewrite Hfile.
  eexists. split; [reflexivity|]. split; [reflexivity|].
  unfold fullDownloads. simpl. rewrite flat_map_app. simpl.
  apply app_nil_r.
Qed.

End AppImageProperties.

(** C7 (the failing input): on macOS, a differential download that fails
    after writing 4096 bytes of the new file is not followed by a full
    download, and yet the download is reported as done: the promise resolves,
    "update-downloaded" is emitted, nothing reaches the "error" channel, and
    the file put in place is the 4096-byte fragment. *)
Theorem appimage_differential_failure_off_linux :
  let r := downloadUpdate
             (AppImage_doDownloadUpdate (Some "/opt/app-1.0.0.AppImage")
                failingDifferentialDownload completeTask
                (fun _ => mkFileInfo "/releases/app-1.1.0.AppImage" "c2hhNTEy"))
             (updaterWithUpdate Darwin) in
  fst r = Normal ["app-1.1.0.AppImage"]
  /\ fullDownloads (trace (snd r)) = []
  /\ errorEvents (trace (snd r)) = []
  /\ In (Emit (EvUpdateDownloaded (info found_1_1_0) "app-1.1.0.AppImage"))
        (trace (snd r))
  /\ cacheDir (snd r) !! "app-1.1.0.AppImage" = Some 4096%N.
Proof.
  vm_compute. repeat split. do 5 right. left. reflexivity.
Qed.

(** The same failure on Linux is followed by the full download. *)
Example appimage_differential_failure_on_linux :
  let r := downloadUpdate
             (AppImage_doDownloadUpdate (Some "/opt/app-1.0.0.AppImage")
                failingDifferentialDownload completeTask
                (fun _ => mkFileInfo "/releases/app-1.1.0.AppImage" "c2hhNTEy"))
             (updaterWithUpdate Linux) in
  fst r = Normal ["app-1.1.0.AppImage"]
  /\ fullDownloads (trace (snd r)) = ["temp-app-1.1.0.AppImage"]
  /\ cacheDir (snd r) !! "app-1.1.0.AppImage" = Some 65536%N.
Proof. vm_compute. repeat split. Qed.

(** * More properties of the updater *)

(** ** Request headers *)

Lemma isAddNoCacheQuery_loop_false (names : list string) :
  isAddNoCacheQuery_loop names = false
  <-> exists name, In name names
                   /\ (toLowerCase name = "authorization"
                       \/ toLowerCase name = "private-token").
Proof.
  induction names as [|n rest IH]; simpl.
  - split; [discriminate | intros (name & [] & _)].
  - destruct (String.eqb (toLowerCase n) "authorization") eqn:Ha; simpl.
    { apply String.eqb_eq in Ha. split; [|reflexivity].
      intros _. exists n. auto. }
    destruct (String.eqb (toLowerCase n) "private-token") eqn:Hp.
    { apply String.eqb_eq in Hp. split; [|reflexivity].
      intros _. exists n. auto. }
    apply String.eqb_neq in Ha, Hp. rewrite IH. split.
    + intros (name & Hin & Hc). exists name. auto.
    + intros (name & [<- | Hin] & Hc); [tauto|]. exists name. auto.
Qed.

Lemma In_Object_keys (headers : Headers) (name : string) :
  In name (Object_keys headers) <-> exists v, headers !! name = Some v.
Proof.
  unfold Object_keys. rewrite <- list_elem_of_In, list_elem_of_fmap. split.
  - intros ([k v] & -> & Hin). apply elem_of_map_to_list in Hin. eauto.
  - intros (v & Hv). exists (name, v). split; [reflexivity|].
    apply elem_of_map_to_list. exact Hv.
Qed.

(** X1: the no-cache query is left out exactly when the request headers
    hold a name that is, up to the case of its letters, "authorization" or
    "private-token"; without request headers it is added. *)
Theorem isAddNoCacheQuery_false_iff (requestHeaders : option Headers) :
  isAddNoCacheQuery requestHeaders = false
  <-> exists headers name value,
        requestHeaders = Some headers
        /\ headers !! name = Some value
        /\ (toLowerCase name = "authorization"
            \/ toLowerCase name = "private-token").
Proof.
  destruct requestHeaders as [headers|]; simpl.
  - rewrite isAddNoCacheQuery_loop_false. split.
    + intros (name & Hin & Hc). apply In_Object_keys in Hin as [v Hv].
      exists headers, name, v. auto.
    + intros (h & name & v & [= <-] & Hv & Hc). exists name.
      split; [apply In_Object_keys; eauto | exact Hc].
  - split; [discriminate|]. intros (h & name & v & [=] & _).
Qed.

(** X2: [addAuthHeader] stores the token under "authorization", replacing
    an earlier one, keeps every other header, and from then on the no-cache
    query is left out. *)
Theorem addAuthHeader_sets_authorization (token : string)
  (requestHeaders : option Headers) :
  exists headers,
    addAuthHeader token requestHeaders = Some headers
    /\ headers !! "authorization" = Some token
    /\ (forall name, name <> "authorization" ->
                     headers !! name = default ∅ requestHeaders !! name)
    /\ isAddNoCacheQuery (addAuthHeader token requestHeaders) = false.
Proof.
  eexists. split; [reflexivity|]. split; [apply lookup_insert_eq|]. split.
  - intros name Hne. apply lookup_insert_ne. congruence.
  - change (isAddNoCacheQuery_loop
              (Object_keys (<["authorization" := token]>
                              (default ∅ requestHeaders))) = false).
    apply isAddNoCacheQuery_loop_false. exists "authorization".
    split; [|left; reflexivity].
    apply In_Object_keys. exists token. apply lookup_insert_eq.
Qed.

(** X3: for every header name, the value set on the updater wins over the
    provider's extra download headers; "accept: */*" is sent only when the
    provider has no extra headers and the updater sets no "accept" itself;
    and a token given to [addAuthHeader] is on every download request. *)
Theorem computeRequestHeaders_precedence (requestHeaders : option Headers)
  (fileExtraDownloadHeaders : option Headers) (name : string) :
  computeRequestHeaders requestHeaders fileExtraDownloadHeaders !! name
  = match default ∅ requestHeaders !! name with
    | Some value => Some value
    | None =>
        match fileExtraDownloadHeaders with
        | Some extra => extra !! name
        | None => if String.eqb name "accept" then Some "*/*" else None
        end
    end
  /\ forall token,
       computeRequestHeaders (addAuthHeader token requestHeaders)
                             fileExtraDownloadHeaders !! "authorization"
       = Some token.
Proof.
  assert (Hgen : forall rh,
    computeRequestHeaders rh fileExtraDownloadHeaders !! name
    = match default ∅ rh !! name with
      | Some value => Some value
      | None =>
          match fileExtraDownloadHeaders with
          | Some extra => extra !! name
          | None => if String.eqb name "accept" then Some "*/*" else None
          end
      end).
  { intros rh.
    assert (Haccept : ({["accept" := "*/*"]} : Headers) !! name
                      = if String.eqb name "accept" then Some "*/*" else None).
    { destruct (String.eqb name "accept") eqn:He.
      - apply String.eqb_eq in He. subst. apply lookup_singleton_eq.
      - apply String.eqb_neq in He. apply lookup_singleton_ne. congruence. }
    unfold computeRequestHeaders, computeFinalHeaders.
    destruct fileExtraDownloadHeaders as [extra|], rh as [r|]; simpl;
      rewrite ?lookup_union, ?lookup_empty, ?Haccept;
      try destruct (r !! name); try reflexivity;
      simpl; try destruct (extra !! name); try reflexivity;
      destruct (String.eqb name "accept"); reflexivity. }
  split; [apply Hgen|].
  intros token.
  unfold computeRequestHeaders, computeFinalHeaders, addAuthHeader.
  destruct fileExtraDownloadHeaders as [extra|];
    rewrite lookup_union, lookup_insert_eq;
    match goal with |- context [union (Some token) ?o] => destruct o end;
    reflexivity.
Qed.

(** The "x-user-staging-id" header of an update check is the one set on
    the updater if there is one, else the staging user ID, or the empty
    string when there is no ID. *)
Lemma updateInfoRequestHeaders_staging_id (requestHeaders : option Headers)
  (stagingUserId : option string) :
  updateInfoRequestHeaders requestHeaders stagingUserId !! "x-user-staging-id"
  = Some (match default ∅ requestHeaders !! "x-user-staging-id" with
          | Some value => value
          | None => default "" stagingUserId
          end).
Proof.
  unfold updateInfoRequestHeaders, computeFinalHeaders.
  destruct requestHeaders as [r|]; simpl.
  - rewrite lookup_union, lookup_singleton_eq.
    destruct (r !! "x-user-staging-id"); reflexivity.
  - rewrite lookup_empty. apply lookup_singleton_eq.
Qed.

(** ** providerFactory *)



Lemma list_ascii_of_string_app (a b : string) :
  list_ascii_of_string (a ++ b)
  = (list_ascii_of_string a ++ list_ascii_of_string b)%list.
Proof. induction a as [|c a IH]; simpl; [reflexivity | rewrite IH; reflexivity]. Qed.

Lemma string_of_list_ascii_app (a b : list ascii) :
  string_of_list_ascii (a ++ b)
  = string_of_list_ascii a ++ string_of_list_ascii b.
Proof. induction a as [|c a IH]; simpl; [reflexivity | rewrite IH; reflexivity]. Qed.




(** The S3 URL of the updater tests gets single range requests. *)
Example s3_url_single_range_requests :
  usesMultipleRangeRequests
    (setFeedURL (OptionsString "https://develar.s3.amazonaws.com/test") Win32)
  = Some false.
Proof. reflexivity. Qed.


(** ** The availability decision, in full *)

Section AvailabilityComplements.
Context `{Semver}.

(** [isUpdateAvailable] in semver mode, by cases. *)
Lemma isUpdateAvailable_semver (u : UpdateInfoAndProvider) (w : World) :
  useSemver w <> SemverFalse ->
  isUpdateAvailable u w =
  match parseVersion (version (info u)) (isLoose (useSemver w)) with
  | None =>
      (Throw (newError
         [Str "This file could not be downloaded, or the latest version (from update server) does not have a valid semver version: ";
          Str (version (info u))] "ERR_UPDATER_INVALID_VERSION"), w)
  | Some latestVersion =>
      match parseVersion (currentVersionString w) (isLoose (useSemver w)) with
      | None =>
          (Throw (newError
             [Str "App version is not a valid semver version: ";
              Str (currentVersionString w)]
             "ERR_UPDATER_INVALID_VERSION"), w)
      | Some current =>
          if isVersionsEqual latestVersion current then (Normal false, w)
          else
            match isStagingMatch (info u) (stagingUserId u) w with
            | (Normal m, w') =>
                (Normal (m && (isVersionGreaterThan latestVersion current
                               || allowDowngrade w
                                  && isVersionLessThan latestVersion current)),
                 w')
            | (Throw e, w') => (Throw e, w')
            end
      end
  end.
Proof.
  intros Hmode. unfold isUpdateAvailable, currentVersion, bind, get.
  destruct (useSemver w) eqn:Hu; [congruence| |];
    (destruct (parseVersion (version (info u)) _); [|reflexivity];
     destruct (parseVersion (currentVersionString w) _); [|reflexivity];
     destruct (isVersionsEqual _ _); [reflexivity|];
     pose proof (isStagingMatch_world (info u) (stagingUserId u) w) as [t Ht];
     destruct (isStagingMatch _ _ w) as [[m|e] w']; [|reflexivity];
     simpl in Ht; subst w';
     destruct m; simpl; [|reflexivity];
     destruct (isVersionGreaterThan _ _); reflexivity).
Qed.

(** X6: in semver mode the check answers "available" exactly when both
    versions parse, they differ, the staging gate lets the install through,
    and the remote version is newer, or older with [allowDowngrade] set.  In
    particular an install the gate holds back is offered no update, however
    new the remote version. *)
Theorem update_available_iff (u : UpdateInfoAndProvider) (w : World) :
  useSemver w <> SemverFalse ->
  fst (isUpdateAvailable u w) = Normal true
  <-> exists latest current,
        parseVersion (version (info u)) (isLoose (useSemver w)) = Some latest
        /\ parseVersion (currentVersionString w) (isLoose (useSemver w))
           = Some current
        /\ compareVersions latest current <> Eq
        /\ fst (isStagingMatch (info u) (stagingUserId u) w) = Normal true
        /\ (compareVersions latest current = Gt \/ allowDowngrade w = true).
Proof.
  intros Hmode. rewrite (isUpdateAvailable_semver u w Hmode).
  unfold isVersionsEqual, isVersionGreaterThan, isVersionLessThan.
  destruct (parseVersion (version (info u)) _) as [latest|].
  2:{ split; [discriminate | intros (l & c & [=] & _)]. }
  destruct (parseVersion (currentVersionString w) _) as [current|].
  2:{ split; [discriminate | intros (l & c & _ & [=] & _)]. }
  destruct (compareVersions latest current) eqn:Hcmp.
  - split; [discriminate|]. intros (l & c & [= <-] & [= <-] & Hne & _).
    congruence.
  - destruct (isStagingMatch (info u) (stagingUserId u) w) as [[m|e] w'];
      simpl.
    + split.
      * intros Heq. destruct m, (allowDowngrade w); simpl in Heq;
          try discriminate.
        exists latest, current. rewrite Hcmp.
        split; [reflexivity|]. split; [reflexivity|].
        split; [discriminate|]. split; [reflexivity|]. right. reflexivity.
      * intros (l & c & [= <-] & [= <-] & _ & [= ->] & [Hgt | ->]);
          [congruence | reflexivity].
    + split; [discriminate|].
      intros (l & c & _ & _ & _ & [=] & _).
  - destruct (isStagingMatch (info u) (stagingUserId u) w) as [[m|e] w'];
      simpl.
    + split.
      * intros Heq. destruct m; simpl in Heq; try discriminate.
        exists latest, current. rewrite Hcmp.
        split; [reflexivity|]. split; [reflexivity|].
        split; [discriminate|]. split; [reflexivity|]. left. reflexivity.
      * intros (l & c & _ & _ & _ & [= ->] & _). reflexivity.
    + split; [discriminate|].
      intros (l & c & _ & _ & _ & [=] & _).
Qed.

(** X7: once a channel has been set, an older remote version is an update
    for every install the staging gate lets through: the setter turns
    [allowDowngrade] on and touches nothing else the decision reads. *)
Theorem channel_enables_downgrade (value : JsValue)
  (u : UpdateInfoAndProvider) (w w1 w2 : World) (latest current : SemVer) :
  set_channel value w = (Normal tt, w1) ->
  useSemver w <> SemverFalse ->
  parseVersion (version (info u)) (isLoose (useSemver w)) = Some latest ->
  parseVersion (currentVersionString w) (isLoose (useSemver w)) = Some current ->
  compareVersions latest current = Lt ->
  isStagingMatch (info u) (stagingUserId u) w1 = (Normal true, w2) ->
  isUpdateAvailable u w1 = (Normal true, w2).
Proof.
  intros Hset Hmode HR HC Hlt Hgate.
  assert (Hw1 : w1 = with_channel value true w).
  { revert Hset. unfold set_channel, bind, get, modify, ret, throw. simpl.
    destruct (isNullish (_channel w)); simpl.
    - intros [= <-]. reflexivity.
    - destruct value as [| |b|z| |s|]; simpl; try discriminate.
      destruct (String.length s =? 0)%nat; simpl; [discriminate|].
      intros [= <-]. reflexivity. }
  rewrite isUpdateAvailable_semver by (subst w1; exact Hmode).
  subst w1. simpl in *. rewrite HR, HC.
  unfold isVersionsEqual, isVersionGreaterThan, isVersionLessThan.
  rewrite Hlt, Hgate. reflexivity.
Qed.

End AvailabilityComplements.

Lemma update_available_iff_witness :
  fst (isUpdateAvailable (remote "1.1.0") (newAppUpdater "1.0.0" Linux))
  = Normal true
  <-> exists latest current,
        parseTriple "1.1.0" false = Some latest
        /\ parseTriple "1.0.0" false = Some current
        /\ compareTriple latest current <> Eq
        /\ fst (isStagingMatch (info (remote "1.1.0"))
                               (stagingUserId (remote "1.1.0"))
                               (newAppUpdater "1.0.0" Linux)) = Normal true
        /\ (compareTriple latest current = Gt \/ false = true).
Proof.
  exact (update_available_iff (remote "1.1.0") (newAppUpdater "1.0.0" Linux)
           ltac:(discriminate)).
Defined.

Lemma channel_enables_downgrade_witness :
  isUpdateAvailable (remote "1.0.0")
    (with_channel (JsString "beta") true (newAppUpdater "1.1.0" Linux))
  = (Normal true,
     with_channel (JsString "beta") true (newAppUpdater "1.1.0" Linux)).
Proof.
  apply (@channel_enables_downgrade TripleSemver
           (JsString "beta") (remote "1.0.0")
           (newAppUpdater "1.1.0" Linux) _ _ (1, 0, 0)%N (1, 1, 0)%N);
    try reflexivity.
  discriminate.
Defined.

(** ** Failed downloads *)



(** ** The AppImage task, case by case *)

Section AppImageCases.
Variable differentialDownload : string -> string -> M unit.
Variable httpExecutor_download : string -> M unit.
Variable resolveFile : UpdateInfo -> ResolvedUpdateFileInfo.


(** X10: the task makes the full download exactly when the differential
    download failed and the platform is Linux.  After a differential
    download that succeeded no full download is made, on any platform; on
    Linux every error of the differential download, a cancellation
    included, is logged and answered by the full download into the same
    file, and the task then ends as that download and the chmod end. *)
Theorem AppImage_task_full_download (oldFile updateFile : string)
  (w w1 : World) (attempt : Completion unit) :
  differentialDownload oldFile updateFile w = (attempt, w1) ->
  let task := AppImage_task (Some oldFile) differentialDownload
                            httpExecutor_download in
  match attempt with
  | Normal _ => task updateFile w = chmod updateFile w1
  | Throw e =>
      let logged :=
        after (Log Error
                 (Str "Cannot download differentially, fallback to full download: "
                  :: message e)) w1 in
      if isLinux (platform w1)
      then task updateFile w
           = (let* _ := httpExecutor_download updateFile in chmod updateFile)
               (after (CallFullDownload updateFile) logged)
      else task updateFile w = chmod updateFile logged
  end.
Proof.
  intros Hd task. subst task. unfold AppImage_task, after.
  unfold tryCatch, bind, logger, effect, modify, get, ret. rewrite Hd.
  destruct attempt as [[]|e]; simpl; [reflexivity|].
  destruct (isLinux (platform w1)); reflexivity.
Qed.

End AppImageCases.


(** A cancelled differential download on Linux: the full download starts
    all the same. *)
Example AppImage_task_cancelled_differential_on_linux :
  let cancelled (oldFile newFile : string) : M unit := throw CancellationError in
  let r := AppImage_task (Some "/opt/app-1.0.0.AppImage") cancelled completeTask
             "temp-app-1.1.0.AppImage" (newAppUpdater "1.0.0" Linux) in
  fst r = Normal tt
  /\ fullDownloads (trace (snd r)) = ["temp-app-1.1.0.AppImage"].
Proof. vm_compute. split; reflexivity. Qed.

(** ** Whether the updater is active *)

(** X11: the AppImage updater is active exactly for an external app, and
    for a packaged app started from an AppImage (APPIMAGE is set); when it
    is not active it says why in one log entry, and when it is active it
    logs nothing. *)
Theorem AppImage_isUpdaterActive_iff (APPIMAGE SNAP : option string)
  (app : AppAdapter) (w : World) :
  exists active w',
    AppImage_isUpdaterActive APPIMAGE SNAP app w = (Normal active, w')
    /\ (active = true
        <-> isExternalApp app = true
            \/ (APPIMAGE <> None /\ isPackaged app = true))
    /\ (active = true -> w' = w)
    /\ (active = false -> exists lvl msg, w' = after (Log lvl msg) w).
Proof.
  unfold AppImage_isUpdaterActive, isUpdaterActive.
  destruct (isExternalApp app); simpl.
  - exists true, w. split; [reflexivity|]. split; [tauto|].
    split; [reflexivity | discriminate].
  - destruct APPIMAGE as [a|]; simpl.
    + destruct (isPackaged app); simpl.
      * exists true, w. split; [reflexivity|]. split.
        { split; [|reflexivity]. intros _. right. split; [discriminate|reflexivity]. }
        split; [reflexivity | discriminate].
      * eexists false, _. split; [reflexivity|]. split.
        { split; [discriminate|]. intros [Hx | [_ Hx]]; discriminate. }
        split; [discriminate | eauto].
    + assert (Hnot : false = true
                     <-> false = true
                         \/ (@None string <> None /\ isPackaged app = true)).
      { split; [discriminate|]. intros [Hx | [Hn _]]; congruence. }
      destruct SNAP; eexists false, _; (split; [reflexivity|]);
        (split; [exact Hnot|]); (split; [discriminate | eauto]).
Qed.

(** ** The protocol of an update check *)

Section AvailabilityWorld.
Context `{Semver}.

(** The decision changes nothing but the log. *)
Lemma isUpdateAvailable_world (r : UpdateInfoAndProvider) (w : World) :
  exists t, snd (isUpdateAvailable r w) = with_trace t w.
Proof.
  destruct (useSemver w) eqn:Hmode.
  - unfold isUpdateAvailable, bind, get. rewrite Hmode.
    exists (trace w). destruct w; reflexivity.
  - rewrite isUpdateAvailable_semver by congruence.
    destruct (parseVersion (version (info r)) _);
      [|exists (trace w); destruct w; reflexivity].
    destruct (parseVersion (currentVersionString w) _);
      [|exists (trace w); destruct w; reflexivity].
    destruct (isVersionsEqual _ _);
      [exists (trace w); destruct w; reflexivity|].
    destruct (isStagingMatch_world (info r) (stagingUserId r) w) as [t Ht].
    destruct (isStagingMatch _ _ w) as [[m|e] w']; simpl in *; eauto.
  - rewrite isUpdateAvailable_semver by congruence.
    destruct (parseVersion (version (info r)) _);
      [|exists (trace w); destruct w; reflexivity].
    destruct (parseVersion (currentVersionString w) _);
      [|exists (trace w); destruct w; reflexivity].
    destruct (isVersionsEqual _ _);
      [exists (trace w); destruct w; reflexivity|].
    destruct (isStagingMatch_world (info r) (stagingUserId r) w) as [t Ht].
    destruct (isStagingMatch _ _ w) as [[m|e] w']; simpl in *; eauto.
Qed.

Variable ProviderObject : Type.
Variable getProvider : Completion (option ProviderObject).
Variable getLatestVersion : ProviderObject -> Completion UpdateInfo.
Variable stagingUserIdValue : option string.

Let check :=
  doCheckForUpdates_body ProviderObject getProvider getLatestVersion
                         stagingUserIdValue.

(** An update check, by its course: the result, the events and the stored
    update info. *)
Lemma doCheckForUpdates_cases (u : Updater) :
  let r := fst (check u) in
  let u' := snd (check u) in
  let stored w := updateInfoAndProvider (world w) in
  match getProvider with
  | Throw e => r = Throw e /\ u' = u
  | Normal None =>
      r = Normal {| updateInfo := None; isUpdaterUnconfigured := true;
                    hasCancellationToken := false;
                    downloadPromise := DownloadPromiseUndefined |}
      /\ journal u' = journal u /\ stored u' = stored u
  | Normal (Some provider) =>
      match getLatestVersion provider with
      | Throw e =>
          r = Throw e
          /\ journal u' = (journal u ++ [EvCheckingForUpdate])%list
          /\ stored u' = stored u
      | Normal latest =>
          let found := {| info := latest;
                          stagingUserId := stagingUserIdValue |} in
          match fst (isUpdateAvailable found (world u)) with
          | Throw e =>
              r = Throw e
              /\ journal u' = (journal u ++ [EvCheckingForUpdate])%list
              /\ stored u' = stored u
          | Normal false =>
              r = Normal {| updateInfo := Some latest;
                            isUpdaterUnconfigured := false;
                            hasCancellationToken := false;
                            downloadPromise := DownloadPromiseUndefined |}
              /\ journal u'
                 = (journal u ++ [EvCheckingForUpdate;
                                  EvUpdateNotAvailable latest])%list
              /\ stored u' = stored u
          | Normal true =>
              r = Normal {| updateInfo := Some latest;
                            isUpdaterUnconfigured := false;
                            hasCancellationToken := true;
                            downloadPromise :=
                              if autoDownload u then DownloadPromiseOf
                              else DownloadPromiseNull |}
              /\ journal u'
                 = (journal u ++ [EvCheckingForUpdate; EvUpdateAvailable latest]
                    ++ if autoDownload u then [DownloadStarted] else [])%list
              /\ stored u' = Some found
          end
      end
  end.
Proof.
  subst check. cbv zeta.
  unfold doCheckForUpdates_body, getUpdateInfoAndProvider, onUpdateAvailable,
    bindU, settled, signal, modifyU, getU, retU, liftM.
  destruct getProvider as [[provider|]|e]; simpl.
  - destruct (getLatestVersion provider) as [latest|e]; simpl;
      [|split; [reflexivity|split; reflexivity]].
    destruct (isUpdateAvailable_world
                {| info := latest; stagingUserId := stagingUserIdValue |}
                (world u)) as [t Ht].
    destruct (isUpdateAvailable _ (world u)) as [[[|]|e] w1]; simpl in *;
      subst w1; simpl.
    + destruct (autoDownload u); simpl;
        (split; [reflexivity|]); (split; [|reflexivity]);
        rewrite <- ?app_assoc; reflexivity.
    + split; [reflexivity|]. split; [|reflexivity].
      rewrite <- app_assoc. reflexivity.
    + split; [reflexivity|]. split; reflexivity.
  - split; [reflexivity|]. split; reflexivity.
  - split; reflexivity.
Qed.

(** X12: the events of an update check.  A check that completes without a
    configured provider emits nothing; any other check that completes emits
    "checking-for-update" and then exactly one of "update-not-available"
    and "update-available", each with the update info it returns, and the
    download is started after "update-available" exactly when [autoDownload]
    is set; a check that fails emits "checking-for-update" at most. *)
Theorem doCheckForUpdates_protocol (u : Updater) :
  exists emitted,
    journal (snd (check u)) = (journal u ++ emitted)%list
    /\ match fst (check u) with
       | Throw _ => emitted = [] \/ emitted = [EvCheckingForUpdate]
       | Normal res =>
           match updateInfo res with
           | None => isUpdaterUnconfigured res = true /\ emitted = []
           | Some latest =>
               isUpdaterUnconfigured res = false
               /\ emitted
                  = if hasCancellationToken res
                    then (EvCheckingForUpdate :: EvUpdateAvailable latest
                          :: if autoDownload u then [DownloadStarted] else [])
                    else [EvCheckingForUpdate; EvUpdateNotAvailable latest]
           end
       end.
Proof.
  pose proof (doCheckForUpdates_cases u) as Hc. cbv zeta in Hc.
  destruct getProvider as [[provider|]|e].
  - destruct (getLatestVersion provider) as [latest|e].
    + destruct (fst (isUpdateAvailable _ (world u))) as [[|]|e].
      * destruct Hc as (-> & -> & _). eexists. split; [reflexivity|].
        simpl. split; reflexivity.
      * destruct Hc as (-> & -> & _). eexists. split; [reflexivity|].
        simpl. split; reflexivity.
      * destruct Hc as (-> & -> & _). eexists. split; [reflexivity|].
        right. reflexivity.
    + destruct Hc as (-> & -> & _). eexists. split; [reflexivity|].
      right. reflexivity.
  - destruct Hc as (-> & -> & _). exists [].
    split; [symmetry; apply app_nil_r|]. split; reflexivity.
  - destruct Hc as (-> & ->). exists [].
    split; [symmetry; apply app_nil_r|]. left. reflexivity.
Qed.


End AvailabilityWorld.

(** ** BaseUpdater: install happens once *)

Ltac run_updater :=
  unfold bindU, getU, modifyU, retU, throwU, liftM, signal, settled,
    dispatchError, logger, emit, effect, modify; simpl.

Section InstallProperties.
Variable app : AppAdapter.
Variable doInstall : InstallOptions -> Completion InstallResultTuple.
Variable accessTestFails : bool.

Let install' := install app doInstall accessTestFails.

(** An install that is asked for while [installCalled] is set is ignored:
    a warning, and nothing else. *)
Lemma install_ignored (isSilent isForceRunAfter : bool) (u : Updater) :
  installCalled u = true ->
  install' isSilent isForceRunAfter u
  = (Normal (false, None),
     with_world
       (after (Log Warn [Str "install call ignored: installCalled is set to true"])
              (world u)) u).
Proof.
  intros Hc. subst install'. unfold install, ensureDownloadedInstaller.
  run_updater. rewrite Hc. reflexivity.
Qed.

(** Without a downloaded update, install reports it on the "error"
    channel and leaves [installCalled] unset. *)
Lemma install_without_update (isSilent isForceRunAfter : bool) (u : Updater) :
  installCalled u = false ->
  helperFile u = None \/ helperAdminRights u = None ->
  exists e,
    install' isSilent isForceRunAfter u
    = (Normal (false, None), with_world (after (Emit (EvError e)) (world u)) u)
    /\ message e
       = [Str "No valid update available, can't ";
          Str (if isExternalApp app then "install" else "quit and install")].
Proof.
  intros Hc Hn. subst install'. unfold install, ensureDownloadedInstaller.
  run_updater. rewrite Hc.
  destruct (helperFile u) as [p|], (helperAdminRights u) as [i|];
    try (destruct Hn; discriminate);
    eexists; split; reflexivity.
Qed.

(** With a downloaded update and [installCalled] unset, install sets the
    flag and calls [doInstall] once, whatever [doInstall] does. *)
Lemma install_with_update (silent forceRunAfter : bool) (u : Updater)
  (path : string) (adminRights : bool) :
  installCalled u = false ->
  helperFile u = Some path ->
  helperAdminRights u = Some adminRights ->
  exists r u' options,
    install' silent forceRunAfter u = (Normal r, u')
    /\ installCalled u' = true
    /\ journal u' = (journal u ++ [CallDoInstall options])%list
    /\ helperFile u' = helperFile u
    /\ helperAdminRights u' = helperAdminRights u
    /\ autoInstallOnAppQuit u' = autoInstallOnAppQuit u
    /\ installerPath options = path
    /\ isSilent options = silent
    /\ isForceRunAfter options = forceRunAfter
    /\ (adminRights = true -> isAdminRightsRequired options = true).
Proof.
  intros Hc Hf Hi. subst install'. unfold install, ensureDownloadedInstaller.
  run_updater. rewrite Hc, Hf, Hi. simpl.
  match goal with
  | |- context [doInstall ?o] => destruct (doInstall o) as [r|e] eqn:Hd
  end; simpl; do 3 eexists; (split; [reflexivity|]); simpl;
    repeat (split; [first [reflexivity | assumption]|]);
    intros Hadmin; rewrite Hadmin;
    destruct (negb (isExternalApp app) && installPathElevationCheckEnabled u),
      accessTestFails, (isExternalApp app),
      (installPathForElevationCheck app); reflexivity.
Qed.

(** [install] never throws. *)
Lemma install_total (isSilent isForceRunAfter : bool) (u : Updater) :
  exists r u', install' isSilent isForceRunAfter u = (Normal r, u').
Proof.
  destruct (installCalled u) eqn:Hc.
  - rewrite install_ignored by exact Hc. eauto.
  - destruct (helperFile u) as [p|] eqn:Hf.
    + destruct (helperAdminRights u) as [i|] eqn:Hi.
      * destruct (install_with_update isSilent isForceRunAfter u p i Hc Hf Hi)
          as (r & u' & o & Hr & _). eauto.
      * destruct (install_without_update isSilent isForceRunAfter u Hc
                    (or_intror Hi)) as (e & Hr & _). eauto.
    + destruct (install_without_update isSilent isForceRunAfter u Hc
                  (or_introl Hf)) as (e & Hr & _). eauto.
Qed.

(** X14: once an install has got hold of the downloaded update, every
    later install, asked for explicitly or by the quit handler, is ignored
    with a warning: [doInstall] is called once, also when that one call
    threw. *)
Theorem install_is_single_shot (isSilent isForceRunAfter : bool)
  (u : Updater) (installerPath : string) (adminRights : bool) :
  installCalled u = false ->
  helperFile u = Some installerPath ->
  helperAdminRights u = Some adminRights ->
  let u1 := snd (install' isSilent isForceRunAfter u) in
  countSignal isCallDoInstall (journal u1)
  = S (countSignal isCallDoInstall (journal u))
  /\ (forall isSilent' isForceRunAfter',
        exists u2,
          install' isSilent' isForceRunAfter' u1 = (Normal (false, None), u2)
          /\ journal u2 = journal u1 /\ installCalled u2 = true)
  /\ (forall exitCode,
        exists u2,
          quitHandler app doInstall accessTestFails exitCode u1
          = (Normal tt, u2)
          /\ journal u2 = journal u1).
Proof.
  intros Hc Hf Hi u1.
  destruct (install_with_update isSilent isForceRunAfter u installerPath
              adminRights Hc Hf Hi)
    as (r & u' & o & Hr & Hc' & Hj & _).
  subst u1. rewrite Hr. simpl. split; [|split].
  - rewrite Hj. unfold countSignal.
    rewrite List.filter_app, length_app. simpl. lia.
  - intros s f. rewrite install_ignored by exact Hc'.
    eexists. split; [reflexivity|]. split; [reflexivity | exact Hc'].
  - intros exitCode. unfold quitHandler. run_updater. rewrite Hc'.
    eexists. split; reflexivity.
Qed.


(** X16: [installExternal] of an external app never throws and always
    leaves [installCalled] unset, so it can be asked again; it answers
    [willInstall], and with a downloaded update at hand it calls [doInstall]
    once per request.  For an app that is not external it throws and does
    nothing. *)
Theorem installExternal_resets_installCalled (isSilent isForceRunAfter : bool)
  (u : Updater) :
  if isExternalApp app then
    exists answer u',
      installExternal app doInstall accessTestFails isSilent isForceRunAfter u
      = (Normal answer, u')
      /\ installCalled u' = false
      /\ (installCalled u = false ->
          forall installerPath adminRights,
            helperFile u = Some installerPath ->
            helperAdminRights u = Some adminRights ->
            countSignal isCallDoInstall (journal u')
            = S (countSignal isCallDoInstall (journal u))
            /\ helperFile u' = helperFile u
            /\ helperAdminRights u' = helperAdminRights u)
  else
    exists e, installExternal app doInstall accessTestFails
                isSilent isForceRunAfter u = (Throw e, u).
Proof.
  unfold installExternal. destruct (isExternalApp app) eqn:Hext; simpl.
  2:{ eexists. reflexivity. }
  set (u0 := with_world
               (after (Log Info [Str "Install with installExternal"]) (world u))
               u).
  assert (Hrun : forall r u1,
    install' isSilent (if isSilent then isForceRunAfter else true) u0
    = (Normal r, u1) ->
    exists answer u',
      installExternal app doInstall accessTestFails isSilent isForceRunAfter u
      = (Normal answer, u')
      /\ installCalled u' = false /\ journal u' = journal u1
      /\ helperFile u' = helperFile u1
      /\ helperAdminRights u' = helperAdminRights u1).
  { intros [willInstall installed] u1 Hr.
    unfold installExternal. rewrite Hext. simpl.
    unfold bindU at 1. unfold liftM at 1. rewrite logger_eq. fold u0.
    unfold bindU at 1. fold install'. rewrite Hr.
    destruct willInstall; simpl.
    - destruct installed as [[[]|e]|]; run_updater;
        do 2 eexists; (split; [reflexivity|]); repeat split.
    - run_updater. do 2 eexists. split; [reflexivity|]. repeat split. }
  destruct (install_total isSilent (if isSilent then isForceRunAfter else true)
              u0) as (r & u1 & Hr).
  destruct (Hrun r u1 Hr) as (answer & u' & Hx & Hc' & Hj & Hf' & Hi').
  fold (installExternal app doInstall accessTestFails isSilent isForceRunAfter)
    in Hx.
  exists answer, u'. split.
  { revert Hx. unfold installExternal. rewrite Hext. simpl. exact (fun x => x). }
  split; [exact Hc'|].
  intros Hc p i Hf Hi.
  destruct (install_with_update isSilent
              (if isSilent then isForceRunAfter else true) u0 p i Hc Hf Hi)
    as (r' & u1' & o & Hr' & _ & Hj1 & Hf1 & Hi1 & _).
  rewrite Hr' in Hr. injection Hr as <- <-.
  rewrite Hj, Hj1, Hf', Hi', Hf1, Hi1. simpl. split; [|split; reflexivity].
  unfold countSignal. rewrite List.filter_app, length_app. simpl. lia.
Qed.

(** X17: the quit handler installs the update only when the app quits with
    exit code 0, [autoInstallOnAppQuit] is set and no install was asked for
    before; in every other case it writes one log entry and does nothing
    else. *)
Theorem quitHandler_installs_on_clean_exit (exitCode : Z) (u : Updater) :
  if installCalled u || negb (autoInstallOnAppQuit u) || negb (exitCode =? 0)%Z
  then exists msg,
         quitHandler app doInstall accessTestFails exitCode u
         = (Normal tt, with_world (after (Log Info msg) (world u)) u)
  else exists r u1,
         install' true false
           (with_world (after (Log Info [Str "Auto install update on quit"])
                              (world u)) u)
         = (Normal r, u1)
         /\ quitHandler app doInstall accessTestFails exitCode u
            = (Normal tt, u1).
Proof.
  assert (Hbody : quitHandler app doInstall accessTestFails exitCode u
    = (if installCalled u then
         liftM (logger Info
           [Str "Update installer has already been triggered. Quitting application."])
       else if negb (autoInstallOnAppQuit u) then
         liftM (logger Info
           [Str "Update will not be installed on quit because autoInstallOnAppQuit is set to false."])
       else if negb (exitCode =? 0)%Z then
         liftM (logger Info
           [Str "Update will be not installed on quit because application is quitting with exit code ";
            Val (JsNumber exitCode)])
       else
         let+ _ := liftM (logger Info [Str "Auto install update on quit"]) in
         let+ _ := install' true false in
         retU tt) u) by reflexivity.
  rewrite Hbody. clear Hbody.
  destruct (installCalled u); simpl; [eexists; reflexivity|].
  destruct (autoInstallOnAppQuit u); simpl; [|eexists; reflexivity].
  destruct (exitCode =? 0)%Z; simpl; [|eexists; reflexivity].
  destruct (install_total true false
              (with_world (after (Log Info [Str "Auto install update on quit"])
                                 (world u)) u)) as (r & u1 & Hr).
  exists r, u1. split; [exact Hr|].
  unfold bindU at 1.
  change (liftM (logger Info [Str "Auto install update on quit"]) u)
    with (@Normal unit tt,
          with_world (after (Log Info [Str "Auto install update on quit"])
                            (world u)) u).
  cbv iota beta. unfold bindU at 1. rewrite Hr. reflexivity.
Qed.

(** X18: [addQuitHandler] gives the app at most one quit handler: it
    registers one exactly when none was registered, [autoInstallOnAppQuit]
    is set and the app is not external, and calling it again changes
    nothing. *)
Theorem addQuitHandler_registers_once (u : Updater) :
  let u1 := snd (addQuitHandler app u) in
  fst (addQuitHandler app u) = Normal tt
  /\ journal u1
     = (journal u
        ++ if quitHandlerAdded u || negb (autoInstallOnAppQuit u)
              || isExternalApp app
           then [] else [QuitHandlerRegistered])%list
  /\ addQuitHandler app u1 = (Normal tt, u1)
  /\ (countSignal isQuitHandlerRegistered (journal u)
      = (if quitHandlerAdded u then 1 else 0)%nat ->
      countSignal isQuitHandlerRegistered (journal u1)
      = (if quitHandlerAdded u1 then 1 else 0)%nat).
Proof.
  unfold addQuitHandler. run_updater.
  destruct (quitHandlerAdded u) eqn:Hq; simpl.
  - rewrite Hq. simpl. rewrite app_nil_r. repeat split; auto.
  - destruct (autoInstallOnAppQuit u) eqn:Ha; simpl.
    + destruct (isExternalApp app) eqn:He; simpl.
      * rewrite Hq, Ha. simpl. rewrite app_nil_r. repeat split; auto.
      * repeat split; auto. intros Hcount. unfold countSignal in *.
        rewrite List.filter_app, length_app, Hcount. reflexivity.
    + rewrite Hq, Ha. simpl. rewrite app_nil_r. repeat split; auto.
Qed.

End InstallProperties.

Lemma install_is_single_shot_witness :
  let u := withInstaller "app-1.1.0.AppImage" false
             (newUpdater (newAppUpdater "1.0.0" Linux)) in
  let u1 := snd (install packagedApp failingDoInstall false true false u) in
  countSignal isCallDoInstall (journal u1) = 1%nat
  /\ (forall isSilent' isForceRunAfter',
        exists u2,
          install packagedApp failingDoInstall false isSilent' isForceRunAfter' u1
          = (Normal (false, None), u2)
          /\ journal u2 = journal u1 /\ installCalled u2 = true)
  /\ (forall exitCode,
        exists u2,
          quitHandler packagedApp failingDoInstall false exitCode u1
          = (Normal tt, u2)
          /\ journal u2 = journal u1).
Proof.
  exact (install_is_single_shot packagedApp failingDoInstall false true false
           (withInstaller "app-1.1.0.AppImage" false
              (newUpdater (newAppUpdater "1.0.0" Linux)))
           "app-1.1.0.AppImage" false eq_refl eq_refl eq_refl).
Defined.

(** [quitAndInstall] with nothing downloaded: the error is dispatched, and
    the quit is scheduled. *)
Example quitAndInstall_without_update :
  let r := quitAndInstall packagedApp failingDoInstall false false false
             (newUpdater (newAppUpdater "1.0.0" Win32)) in
  fst r = Normal tt
  /\ journal (snd r) = [QuitScheduled]
  /\ length (errorEvents (trace (world (snd r)))) = 1%nat.
Proof. vm_compute. repeat split. Qed.

(** ** The staging user ID file *)

Section StagingUserIdProperties.
Variable UUID_check : string -> bool.

Let getOrCreate := getOrCreateStagingUserId UUID_check.

(** X19: with a path and a disk that can be written, the staging user ID
    is created once and then kept: the call returns a checked ID, which is
    the content of the file if that was one and else the generated one, the
    file holds it afterwards, and every later call returns the same ID,
    whatever it would have generated, without writing or logging. *)
Theorem stagingUserId_is_stable (file generated generated' : string)
  (disk : IdDisk) (w : World) :
  writeError disk = None ->
  UUID_check generated = true ->
  exists id disk1 w1,
    getOrCreate (Some file) generated disk w = (Normal (Some id, disk1), w1)
    /\ UUID_check id = true
    /\ (id = generated \/ idFile disk = FileContent id)
    /\ idFile disk1 = FileContent id
    /\ getOrCreate (Some file) generated' disk1 w1
       = (Normal (Some id, disk1), w1).
Proof.
  intros Hw Hg. subst getOrCreate. unfold getOrCreateStagingUserId.
  destruct disk as [state werr]. simpl in *. subst werr.
  destruct state as [|content|e]; run_monad.
  - do 3 eexists. split; [reflexivity|]. simpl.
    rewrite Hg. repeat split; auto.
  - destruct (UUID_check content) eqn:Hc; simpl;
      do 3 eexists; (split; [reflexivity|]); simpl; rewrite ?Hc, ?Hg;
      repeat split; auto.
  - destruct (negb (bool_decide (code e = Some "ENOENT"))); simpl;
      do 3 eexists; (split; [reflexivity|]); simpl; rewrite Hg;
      repeat split; auto.
Qed.

(** X20: the ID is null exactly when there is no path for its file, and
    then nothing is read, written or logged; and on a disk that cannot be
    written, with no valid ID in the file, the call returns the generated
    ID and leaves the disk as it was, so that the next call answers with
    whatever is generated then. *)
Theorem stagingUserId_without_file (file : option string) (generated : string)
  (disk : IdDisk) (w : World) :
  (exists id disk1 w1,
     getOrCreate file generated disk w = (Normal (id, disk1), w1)
     /\ (id = None <-> file = None)
     /\ (file = None -> disk1 = disk /\ w1 = w))
  /\ (forall path e,
        file = Some path ->
        writeError disk = Some e ->
        (forall content, idFile disk = FileContent content ->
                         UUID_check content = false) ->
        exists w1,
          getOrCreate file generated disk w
          = (Normal (Some generated, disk), w1)).
Proof.
  subst getOrCreate. unfold getOrCreateStagingUserId. split.
  - destruct file as [path|].
    2:{ exists None, disk, w. split; [reflexivity|]. tauto. }
    assert (Hsome : forall id : string, (Some id = None <-> Some path = None))
      by (intros id; split; discriminate).
    destruct (idFile disk) as [|content|e]; run_monad.
    + destruct (writeError disk); simpl; do 3 eexists;
        (split; [reflexivity|]); (split; [apply Hsome | discriminate]).
    + destruct (UUID_check content); simpl;
        [|destruct (writeError disk); simpl];
        do 3 eexists; (split; [reflexivity|]);
        (split; [apply Hsome | discriminate]).
    + destruct (negb (bool_decide (code e = Some "ENOENT"))); simpl;
        destruct (writeError disk); simpl; do 3 eexists;
        (split; [reflexivity|]); (split; [apply Hsome | discriminate]).
  - intros path e -> Hw Hinvalid. rewrite Hw.
    destruct (idFile disk) as [|content|e'] eqn:Hf; run_monad.
    + eexists. reflexivity.
    + rewrite (Hinvalid content eq_refl). simpl. eexists. reflexivity.
    + destruct (negb (bool_decide (code e' = Some "ENOENT"))); simpl;
        eexists; reflexivity.
Qed.

End StagingUserIdProperties.

Lemma stagingUserId_is_stable_witness :
  exists id disk1 w1,
    getOrCreateStagingUserId isCanonicalUUID (Some "/home/u/.updaterId")
      "12a70172-80f8-5cc4-8131-28f5e0edd2a1"
      (mkIdDisk (FileContent "1wa70172-80f8-5cc4-8131-28f5e0edd2a1") None)
      (newAppUpdater "1.0.0" Linux)
    = (Normal (Some id, disk1), w1)
    /\ isCanonicalUUID id = true
    /\ (id = "12a70172-80f8-5cc4-8131-28f5e0edd2a1"
        \/ FileContent "1wa70172-80f8-5cc4-8131-28f5e0edd2a1" = FileContent id)
    /\ idFile disk1 = FileContent id
    /\ getOrCreateStagingUserId isCanonicalUUID (Some "/home/u/.updaterId")
         "8f1c2a3e-5b6d-5e7f-9a0b-1c2dffffffff" disk1 w1
       = (Normal (Some id, disk1), w1).
Proof.
  apply (stagingUserId_is_stable isCanonicalUUID "/home/u/.updaterId"
           "12a70172-80f8-5cc4-8131-28f5e0edd2a1"
           "8f1c2a3e-5b6d-5e7f-9a0b-1c2dffffffff"
           (mkIdDisk (FileContent "1wa70172-80f8-5cc4-8131-28f5e0edd2a1") None)
           (newAppUpdater "1.0.0" Linux)).
  - reflexivity.
  - vm_compute. reflexivity.
Defined.

(** ** The name of the cached update file *)

Lemma string_length_app (a b : string) :
  String.length (a ++ b) = (String.length a + String.length b)%nat.
Proof. induction a as [|c a IH]; simpl; [reflexivity | rewrite IH; reflexivity]. Qed.

Lemma substring_all (b : string) : substring 0 (String.length b) b = b.
Proof. induction b as [|c b IH]; simpl; [reflexivity | rewrite IH; reflexivity]. Qed.

Lemma substring_after (a b : string) (m : nat) :
  substring (String.length a) m (a ++ b) = substring 0 m b.
Proof. induction a as [|c a IH]; simpl; [reflexivity | exact IH]. Qed.

Lemma substring_split (s : string) :
  forall i, (i <= String.length s)%nat ->
            s = substring 0 i s ++ substring i (String.length s - i) s.
Proof.
  induction s as [|c s IH]; intros i Hi.
  - destruct i; reflexivity.
  - destruct i as [|i]; simpl.
    + rewrite substring_all. reflexivity.
    + simpl in Hi.
      change (String c s
              = String c (substring 0 i s
                          ++ substring i (String.length s - i) s)).
      f_equal. apply IH. lia.
Qed.

(** [endsWith] holds exactly of the strings that end in the suffix. *)
Lemma endsWith_iff (s suffix : string) :
  endsWith s suffix = true <-> exists p, s = p ++ suffix.
Proof.
  unfold endsWith. rewrite andb_true_iff, Nat.leb_le, String.eqb_eq. split.
  - intros [Hle Hsub].
    exists (substring 0 (String.length s - String.length suffix) s).
    pose proof (substring_split s (String.length s - String.length suffix)
                  ltac:(lia)) as Hs.
    replace (String.length s - (String.length s - String.length suffix))%nat
      with (String.length suffix) in Hs by lia.
    rewrite Hsub in Hs. exact Hs.
  - intros [p ->]. rewrite string_length_app. split; [lia|].
    replace (String.length p + String.length suffix - String.length suffix)%nat
      with (String.length p) by lia.
    rewrite substring_after. apply substring_all.
Qed.

Lemma includes_slash (s : string) :
  includes s "/" = negb (noSlash (list_ascii_of_string s)).
Proof.
  unfold includes. simpl.
  induction (list_ascii_of_string s) as [|c r IH]; [reflexivity|].
  change (includes_chars (c :: r) ["/"%char])
    with (startsWith (c :: r) ["/"%char] || includes_chars r ["/"%char]).
  rewrite IH.
  change (startsWith (c :: r) ["/"%char])
    with (Ascii.eqb "/" c && startsWith r []).
  change (noSlash (c :: r)) with (negb (Ascii.eqb c "/") && noSlash r).
  rewrite (Ascii.eqb_sym "/" c).
  destruct (Ascii.eqb c "/"); [destruct r; reflexivity | reflexivity].
Qed.

Lemma basename_aux_noSlash_tail (s : list ascii) :
  noSlash s = true -> forall acc, basename_aux s acc = (acc ++ s)%list.
Proof.
  induction s as [|c r IH]; intros Hs acc; simpl.
  - symmetry. apply app_nil_r.
  - simpl in Hs. apply andb_prop in Hs as [Hc Hr].
    apply negb_true_iff in Hc. rewrite Hc, (IH Hr), <- app_assoc. reflexivity.
Qed.

Lemma basename_aux_app (p s : list ascii) :
  noSlash s = true ->
  forall acc, basename_aux (p ++ s) acc = (basename_aux p acc ++ s)%list.
Proof.
  intros Hs. induction p as [|c r IH]; intros acc; simpl.
  - apply basename_aux_noSlash_tail. exact Hs.
  - destruct (Ascii.eqb c "/"); apply IH.
Qed.

Lemma basename_aux_noSlash (cs : list ascii) :
  forall acc, noSlash acc = true -> noSlash (basename_aux cs acc) = true.
Proof.
  induction cs as [|c r IH]; intros acc Hacc; simpl; [exact Hacc|].
  destruct (Ascii.eqb c "/") eqn:Hc.
  - apply IH. reflexivity.
  - apply IH. unfold noSlash. rewrite forallb_app. simpl.
    rewrite Hc. simpl. rewrite andb_true_r. exact Hacc.
Qed.

(** X21: the name under which an update is cached always ends in "." and
    the file extension of the task, and it holds no "/", whatever the
    (decoded) path of the URL.  When that path ends in the extension the
    name is what follows its last "/", and else it is "update." and the
    extension. *)
Theorem getCacheUpdateFileName_safe (taskOptions : DownloadExecutorTask) :
  includes (fileExtension taskOptions) "/" = false ->
  let name := getCacheUpdateFileName taskOptions in
  endsWith name ("." ++ fileExtension taskOptions) = true
  /\ includes name "/" = false
  /\ (name = "update." ++ fileExtension taskOptions
      \/ exists directory,
           urlPathname (fileInfo taskOptions) = directory ++ name
           /\ (directory = "" \/ endsWith directory "/" = true)).
Proof.
  intros Hext name. subst name. unfold getCacheUpdateFileName.
  rewrite includes_slash, negb_false_iff in Hext.
  set (ext := fileExtension taskOptions) in *.
  set (urlPath := urlPathname (fileInfo taskOptions)).
  destruct (endsWith urlPath ("." ++ ext)) eqn:He.
  - apply endsWith_iff in He as [p Hp].
    assert (Hdot : noSlash (list_ascii_of_string ("." ++ ext)) = true)
      by exact Hext.
    assert (Hbase : basename urlPath
                    = string_of_list_ascii
                        (basename_aux (list_ascii_of_string p) [])
                      ++ "." ++ ext).
    { unfold basename. rewrite Hp, list_ascii_of_string_app.
      rewrite (basename_aux_app _ _ Hdot), string_of_list_ascii_app.
      rewrite string_of_list_ascii_of_string. reflexivity. }
    split; [|split].
    + rewrite Hbase. apply endsWith_iff. eauto.
    + rewrite includes_slash, negb_false_iff. unfold basename.
      rewrite list_ascii_of_string_of_list_ascii.
      apply basename_aux_noSlash. reflexivity.
    + right. clear Hbase.
      assert (Hsplit : forall cs acc,
        exists d, (acc ++ cs = d ++ basename_aux cs acc)%list
                  /\ (d = [] \/ exists d', d = (d' ++ ["/"%char])%list)).
      { induction cs as [|c r IH]; intros acc; simpl.
        - exists []. rewrite app_nil_r. auto.
        - destruct (Ascii.eqb c "/") eqn:Hc.
          + apply Ascii.eqb_eq in Hc. subst c.
            destruct (IH []) as (d & Hd & Hshape). simpl in Hd.
            exists (acc ++ "/"%char :: d)%list. split.
            * rewrite <- app_assoc. simpl. do 2 f_equal. exact Hd.
            * right. destruct Hshape as [-> | (d' & ->)].
              -- exists acc. reflexivity.
              -- exists (acc ++ "/"%char :: d')%list.
                 rewrite <- app_assoc. reflexivity.
          + destruct (IH (acc ++ [c])%list) as (d & Hd & Hshape).
            exists d. rewrite <- app_assoc in Hd. auto. }
      destruct (Hsplit (list_ascii_of_string urlPath) []) as (d & Hd & Hshape).
      simpl in Hd. exists (string_of_list_ascii d). split.
      * unfold basename.
        rewrite <- string_of_list_ascii_app, <- Hd.
        symmetry. apply string_of_list_ascii_of_string.
      * destruct Hshape as [-> | (d' & ->)]; [left; reflexivity|].
        right. rewrite string_of_list_ascii_app. apply endsWith_iff.
        eexists. reflexivity.
  - split; [|split].
    + apply endsWith_iff. exists "update". reflexivity.
    + rewrite includes_slash, negb_false_iff. exact Hext.
    + left. reflexivity.
Qed.

Lemma getCacheUpdateFileName_safe_witness :
  let taskOptions :=
    mkTask "exe" (mkFileInfo "/download/../../escape/Setup 1.1.0.exe" "")
           (mkUpdateInfo "1.1.0" JsUndefined []) None emptyTask
           (fun _ _ => ret tt) in
  let name := getCacheUpdateFileName taskOptions in
  endsWith name ".exe" = true
  /\ includes name "/" = false
  /\ (name = "update.exe"
      \/ exists directory,
           "/download/../../escape/Setup 1.1.0.exe" = directory ++ name
           /\ (directory = "" \/ endsWith directory "/" = true)).
Proof.
  apply (getCacheUpdateFileName_safe
           (mkTask "exe" (mkFileInfo "/download/../../escape/Setup 1.1.0.exe" "")
                   (mkUpdateInfo "1.1.0" JsUndefined []) None emptyTask
                   (fun _ _ => ret tt))).
  reflexivity.
Defined.

Lemma AppImage_task_full_download_witness :
  let logged :=
    after (Log Error
             (Str "Cannot download differentially, fallback to full download: "
              :: message (newError [Str "sha512 checksum mismatch"]
                                   "ERR_CHECKSUM_MISMATCH")))
          (with_cacheDir {["temp-app-1.1.0.AppImage" := 4096%N]}
                         (newAppUpdater "1.0.0" Linux)) in
  AppImage_task (Some "/opt/app-1.0.0.AppImage") failingDifferentialDownload
                completeTask "temp-app-1.1.0.AppImage"
                (newAppUpdater "1.0.0" Linux)
  = (let* _ := completeTask "temp-app-1.1.0.AppImage" in
     chmod "temp-app-1.1.0.AppImage")
      (after (CallFullDownload "temp-app-1.1.0.AppImage") logged).
Proof.
  exact (AppImage_task_full_download failingDifferentialDownload completeTask
           "/opt/app-1.0.0.AppImage" "temp-app-1.1.0.AppImage"
           (newAppUpdater "1.0.0" Linux) _ _ eq_refl).
Defined.

(** ** Staging percentages written as text *)









(** ** The download notification *)

Lemma getSubstitution_plain (matched before after replacement : list ascii) :
  includes_chars replacement ["$"%char] = false ->
  getSubstitution matched before after replacement = replacement.
Proof.
  induction replacement as [|c r IH]; intros Hplain; [reflexivity|].
  change (includes_chars (c :: r) ["$"%char])
    with (Ascii.eqb "$" c && startsWith r [] || includes_chars r ["$"%char])
    in Hplain.
  apply orb_false_elim in Hplain as [Hc Hr].
  assert (Hs : startsWith r [] = true) by (destruct r; reflexivity).
  rewrite Hs, andb_true_r, Ascii.eqb_sym in Hc.
  change (getSubstitution matched before after (c :: r))
    with (if Ascii.eqb c "$" then
            match r with
            | [] => [c]
            | d :: r' =>
                if Ascii.eqb d "$" then
                  "$"%char :: getSubstitution matched before after r'
                else if Ascii.eqb d "&" then
                  (matched ++ getSubstitution matched before after r')%list
                else if Ascii.eqb d "`" then
                  (before ++ getSubstitution matched before after r')%list
                else if Ascii.eqb d "'" then
                  (after ++ getSubstitution matched before after r')%list
                else c :: getSubstitution matched before after r
            end
          else c :: getSubstitution matched before after r).
  rewrite Hc, (IH Hr). reflexivity.
Qed.

Lemma startsWith_before (a t searchValue : list ascii) (h : ascii) :
  Forall (fun c => c <> h) searchValue ->
  startsWith (a ++ h :: t) searchValue = true ->
  startsWith a searchValue = true.
Proof.
  revert a. induction searchValue as [|p ps IH]; intros a Hne Hs.
  - destruct a; reflexivity.
  - apply Forall_cons in Hne as [Hp Hps].
    destruct a as [|c a']; simpl in Hs |- *.
    + apply andb_prop in Hs as [Hs _]. apply Ascii.eqb_eq in Hs. congruence.
    + apply andb_prop in Hs as [Hc Hs]. rewrite Hc. simpl.
      apply IH; assumption.
Qed.

Lemma splitAtFirst_after (a t searchValue : list ascii) (h : ascii) :
  Forall (fun c => c <> h) searchValue ->
  includes_chars a searchValue = false ->
  splitAtFirst (a ++ h :: t) searchValue
  = match splitAtFirst (h :: t) searchValue with
    | Some (before, after) => Some ((a ++ before)%list, after)
    | None => None
    end.
Proof.
  intros Hne. induction a as [|c a' IH]; intros Hinc.
  - change ([] ++ h :: t)%list with (h :: t).
    destruct (splitAtFirst (h :: t) searchValue) as [[b e]|]; reflexivity.
  - change (includes_chars (c :: a') searchValue)
      with (startsWith (c :: a') searchValue || includes_chars a' searchValue)
      in Hinc.
    apply orb_false_elim in Hinc as [Hc Hr].
    change (splitAtFirst ((c :: a') ++ h :: t) searchValue)
      with (if startsWith ((c :: a') ++ h :: t) searchValue
            then Some ([], skipn (length searchValue) ((c :: a') ++ h :: t))
            else match splitAtFirst (a' ++ h :: t) searchValue with
                 | Some (before, after) => Some (c :: before, after)
                 | None => None
                 end).
    destruct (startsWith ((c :: a') ++ h :: t) searchValue) eqn:Hs.
    + apply startsWith_before in Hs; [congruence | exact Hne].
    + rewrite (IH Hr).
      destruct (splitAtFirst (h :: t) searchValue) as [[b e]|]; reflexivity.
Qed.

(** X23: the default notification.  For an app name and a version without a
    dollar sign, and an app name that does not itself hold the text
    "{version}", the default notification names the app and the version in
    its body and keeps its title. *)
Theorem formatDownloadNotification_default (version appName : string) :
  includes appName "$" = false ->
  includes version "$" = false ->
  includes appName "{version}" = false ->
  formatDownloadNotification version appName None
  = {| title := "A new update is ready to install";
       body := appName ++ " version " ++ version
               ++ " has been downloaded and will be automatically installed on exit" |}.
Proof.
  intros Happ Hver Hinc. unfold includes in Happ, Hver, Hinc.
  unfold formatDownloadNotification. cbn [title body]. f_equal.
  pose (tail := " has been downloaded and will be automatically installed on exit").
  assert (H1 : String_replace
                 "{appName} version {version} has been downloaded and will be automatically installed on exit"
                 "{appName}" appName
               = appName ++ " version {version}" ++ tail).
  { unfold String_replace.
    change (splitAtFirst
              (list_ascii_of_string "{appName} version {version} has been downloaded and will be automatically installed on exit")
              (list_ascii_of_string "{appName}"))
      with (Some ([] : list ascii,
                  list_ascii_of_string (" version {version}" ++ tail))).
    cbn iota beta.
    rewrite (getSubstitution_plain _ _ _ _ Happ). cbn [app].
    rewrite string_of_list_ascii_app, !string_of_list_ascii_of_string.
    reflexivity. }
  rewrite H1. unfold String_replace.
  rewrite list_ascii_of_string_app.
  change (list_ascii_of_string (" version {version}" ++ tail))
    with (" "%char :: list_ascii_of_string ("version {version}" ++ tail)).
  rewrite splitAtFirst_after; [| | exact Hinc].
  2:{ repeat constructor; discriminate. }
  change (splitAtFirst
            (" "%char :: list_ascii_of_string ("version {version}" ++ tail))
            (list_ascii_of_string "{version}"))
    with (Some (list_ascii_of_string " version ",
                list_ascii_of_string tail)).
  cbn iota beta.
  rewrite (getSubstitution_plain _ _ _ _ Hver).
  rewrite !string_of_list_ascii_app, !string_of_list_ascii_of_string.
  clear. induction appName as [|c a IH]; [reflexivity|].
  change (String c ((a ++ " version ") ++ version ++ tail)
          = String c (a ++ " version " ++ version ++ tail)).
  f_equal. exact IH.
Qed.

Lemma formatDownloadNotification_default_witness :
  formatDownloadNotification "1.1.0" "Editor" None
  = {| title := "A new update is ready to install";
       body := "Editor version 1.1.0 has been downloaded and will be automatically installed on exit" |}.
Proof.
  apply (formatDownloadNotification_default "1.1.0" "Editor");
    reflexivity.
Defined.

(** The replacements are made one after the other, each at the first
    occurrence only: an app name that holds "{version}" takes the version,
    and the placeholder behind it stays. *)
Example formatDownloadNotification_placeholder_in_name :
  body (formatDownloadNotification "1.1.0" "App {version}" None)
  = "App 1.1.0 version {version} has been downloaded and will be automatically installed on exit".
Proof. reflexivity. Qed.

(** A dollar sign in the app name is read as a replacement pattern: "$&"
    brings the placeholder back. *)
Example formatDownloadNotification_dollar_in_name :
  body (formatDownloadNotification "1.1.0" "Cash$&" None)
  = "Cash{appName} version 1.1.0 has been downloaded and will be automatically installed on exit".
Proof. reflexivity. Qed.
